(** * A browser-only URL shortener: shallow embedding and verified properties

    The development follows the TypeScript sources:
    - [utils/urlUtils.ts]            identifier utilities,
    - [utils/logger.ts]              the capped event log,
    - [hooks/useUrlStorage.ts]       the record store hook,
    - [components/UrlShortenerForm]  the submission validator,
    - [components/RedirectHandler]   the redirect resolver.

    Conventions of the embedding.
    - A JavaScript string is the list of its UTF-16 code units ([jsstring]);
      [lit] turns an ASCII literal of the source into such a list.
    - A JavaScript number is a [number]: a finite value carried as an exact
      rational, or one of NaN, Infinity, -Infinity.  Comparisons are those of
      IEEE 754.  Arithmetic on finite values is exact: rounding and overflow
      of binary64 are not modelled (on integers below 2^53, which is what
      [parseInt] and [Date.now] produce, exact and binary64 arithmetic agree).
    - Whatever the browser provides (random source, clock, URL parser,
      storage quota, JSON codec, number printing) is an operation of the
      class [Browser].
    - Effects are threaded through a state monad [M] over a [World] holding
      [localStorage], the logger's entries, the React state cells and the
      number of random draws and clock readings made so far.  A component
      function reads the values captured by its render (Section variables)
      and writes the state cells, as closures do in React. *)

From Stdlib Require Import QArith Qround Ascii String Lia Lqa.
From stdpp Require Import gmap strings list fin_maps pretty.

(** ** Strings *)

Abbreviation jsstring := (list N).

Definition lit (s : string) : jsstring :=
  N_of_ascii <$> list_ascii_of_string s.

(** ToBoolean on a string: only the empty string is falsy. *)
Definition truthy (s : jsstring) : bool :=
  match s with [] => false | _ => true end.

(** [a === b] on strings. *)
Definition str_eq (a b : jsstring) : bool := bool_decide (a = b).

(** WhiteSpace and LineTerminator code units of ECMAScript, as stripped by
    [String.prototype.trim]. *)
Definition white_space : list N :=
  [9; 10; 11; 12; 13; 32; 160; 5760;
   8192; 8193; 8194; 8195; 8196; 8197; 8198; 8199; 8200; 8201; 8202;
   8232; 8233; 8239; 8287; 12288; 65279]%N.

Definition is_white_space (c : N) : bool := bool_decide (c ∈ white_space).

Fixpoint trimStart (s : jsstring) : jsstring :=
  match s with
  | c :: s' => if is_white_space c then trimStart s' else s
  | [] => []
  end.

Definition trimEnd (s : jsstring) : jsstring := reverse (trimStart (reverse s)).

Definition trim (s : jsstring) : jsstring := trimEnd (trimStart s).

(** [s.substr(start, len)] for non-negative arguments. *)
Definition substr (s : jsstring) (start len : nat) : jsstring :=
  take len (drop start s).

(** ** Numbers *)

Inductive number := Fin (q : Q) | NaN | Infinity | NegInfinity.

Definition of_Z (z : Z) : number := Fin (inject_Z z).
Definition of_nat (n : nat) : number := of_Z (Z.of_nat n).

Definition Qltb (p q : Q) : bool := negb (Qle_bool q p).

(** [x < y] *)
Definition num_lt (x y : number) : bool :=
  match x, y with
  | NaN, _ | _, NaN => false
  | Fin p, Fin q => Qltb p q
  | Fin _, Infinity => true
  | Fin _, NegInfinity => false
  | Infinity, _ => false
  | NegInfinity, NegInfinity => false
  | NegInfinity, _ => true
  end.

(** [x > y] *)
Definition num_gt (x y : number) : bool := num_lt y x.

(** [x + y] *)
Definition num_add (x y : number) : number :=
  match x, y with
  | NaN, _ | _, NaN => NaN
  | Fin p, Fin q => Fin (p + q)
  | Infinity, NegInfinity | NegInfinity, Infinity => NaN
  | Infinity, _ | _, Infinity => Infinity
  | NegInfinity, _ | _, NegInfinity => NegInfinity
  end.

Definition scale_infinity (positive : bool) (p : Q) : number :=
  match (p ?= 0)%Q with
  | Gt => if positive then Infinity else NegInfinity
  | Lt => if positive then NegInfinity else Infinity
  | Eq => NaN
  end.

(** [x * y] *)
Definition num_mul (x y : number) : number :=
  match x, y with
  | NaN, _ | _, NaN => NaN
  | Fin p, Fin q => Fin (p * q)
  | Fin p, Infinity | Infinity, Fin p => scale_infinity true p
  | Fin p, NegInfinity | NegInfinity, Fin p => scale_infinity false p
  | Infinity, Infinity | NegInfinity, NegInfinity => Infinity
  | Infinity, NegInfinity | NegInfinity, Infinity => NegInfinity
  end.

Definition Math_floor (x : number) : number :=
  match x with
  | Fin q => of_Z (Qfloor q)
  | _ => x
  end.

(** The values two numbers denote are the same (NaN denotes the same value
    as NaN; finite values are compared as rationals). *)
Definition same_number (x y : number) : Prop :=
  match x, y with
  | Fin p, Fin q => (p == q)%Q
  | NaN, NaN | Infinity, Infinity | NegInfinity, NegInfinity => True
  | _, _ => False
  end.

(** The number is a mathematical integer ([Number.isInteger]). *)
Definition is_integer (x : number) : bool :=
  match x with
  | Fin q => Qeq_bool q (inject_Z (Qfloor q))
  | _ => false
  end.

(** ToIntegerOrInfinity, as applied to the position argument of [charAt]. *)
Definition truncate (q : Q) : Z := Z.quot (Qnum q) (Zpos (Qden q)).

(** [s.charAt(pos)]: the one-unit string at [pos], or the empty string. *)
Definition charAt (s : jsstring) (pos : number) : jsstring :=
  match pos with
  | Fin q =>
      let k := truncate q in
      if (0 <=? k)%Z then
        match s !! Z.to_nat k with Some c => [c] | None => [] end
      else []
  | NaN => match s !! 0%nat with Some c => [c] | None => [] end
  | Infinity | NegInfinity => []
  end.

(** [a[i]] on an array: [None] is [undefined]. *)
Definition array_get {A} (a : list A) (i : number) : option A :=
  match i with
  | Fin q =>
      if is_integer i && (0 <=? Qfloor q)%Z then a !! Z.to_nat (Qfloor q)
      else None
  | _ => None
  end.

(** [x / y]; a zero divisor is +0 (the model has no -0). *)
Definition num_div (x y : number) : number :=
  match x, y with
  | NaN, _ | _, NaN => NaN
  | Fin p, Fin q => if Qeq_bool q 0 then scale_infinity true p else Fin (p / q)
  | Fin _, (Infinity | NegInfinity) => Fin 0
  | Infinity, Fin q => if Qltb q 0 then NegInfinity else Infinity
  | NegInfinity, Fin q => if Qltb q 0 then Infinity else NegInfinity
  | (Infinity | NegInfinity), (Infinity | NegInfinity) => NaN
  end.

(** [x % y]: the remainder has the sign of the dividend. *)
Definition num_rem (x y : number) : number :=
  match x, y with
  | Fin p, Fin q =>
      if Qeq_bool q 0 then NaN
      else Fin (p - q * inject_Z (truncate (p / q)))
  | Fin _, (Infinity | NegInfinity) => x
  | _, _ => NaN
  end.

(** ToBoolean on a number: 0 and NaN are falsy. *)
Definition truthy_num (x : number) : bool :=
  match x with
  | Fin q => negb (Qeq_bool q 0)
  | NaN => false
  | Infinity | NegInfinity => true
  end.

(** The value of a digit in the given radix, if it is one. *)
Definition digit_value (radix : Z) (c : N) : option Z :=
  let v :=
    if (48 <=? c)%N && (c <=? 57)%N then Some (Z.of_N c - 48)%Z
    else if (97 <=? c)%N && (c <=? 122)%N then Some (Z.of_N c - 97 + 10)%Z
    else if (65 <=? c)%N && (c <=? 90)%N then Some (Z.of_N c - 65 + 10)%Z
    else None in
  match v with
  | Some d => if (d <? radix)%Z then Some d else None
  | None => None
  end.

(** The integer written by the longest prefix of digits, [acc] being the
    value of the digits read so far ([None] when none was read). *)
Fixpoint leading_digits (radix : Z) (s : jsstring) (acc : option Z)
    : option Z :=
  match s with
  | c :: s' =>
      match digit_value radix c with
      | Some d => leading_digits radix s' (Some (default 0 acc * radix + d))%Z
      | None => acc
      end
  | [] => acc
  end.

(** The number for a mathematical integer: beyond the range of binary64 it
    is an infinity (within the range, rounding is not modelled). *)
Definition integer_to_number (z : Z) : number :=
  if (2 ^ 1024 - 2 ^ 970 <=? z)%Z then Infinity
  else if (z <=? - (2 ^ 1024 - 2 ^ 970))%Z then NegInfinity
  else of_Z z.

(** [parseInt(s)] without a radix: leading white space is skipped, a sign
    is read, the prefix [0x] or [0X] selects radix 16, and the longest
    prefix of digits gives the value; NaN when there is no digit. *)
Definition parseInt (s : jsstring) : number :=
  let s1 := trimStart s in
  let signed :=
    match s1 with
    | 45%N :: rest => ((-1)%Z, rest)
    | 43%N :: rest => (1%Z, rest)
    | _ => (1%Z, s1)
    end in
  let prefixed :=
    match signed.2 with
    | 48%N :: 120%N :: rest | 48%N :: 88%N :: rest => (16%Z, rest)
    | _ => (10%Z, signed.2)
    end in
  match leading_digits prefixed.1 prefixed.2 None with
  | None => NaN
  | Some mathInt => integer_to_number (signed.1 * mathInt)
  end.

(** ** Values of type [any] carried by log entries *)

#[local] Unset Elimination Schemes.
Inductive any :=
  | undefined
  | Num (n : number)
  | Str (s : jsstring)
  | Obj (fields : list (string * any))
  | Arr (items : list any)
  | Exn (name : string).
#[local] Set Elimination Schemes.

(** ** The data model ([types/index.ts], [utils/logger.ts]) *)

Record ClickData := mkClickData {
  c_id : jsstring;
  c_timestamp : number;
  userAgent : jsstring;
  referrer : jsstring;
  ip : jsstring;
  location : jsstring;
}.

Record ShortenedUrl := mkShortenedUrl {
  u_id : jsstring;
  originalUrl : jsstring;
  shortCode : jsstring;
  createdAt : number;
  expiresAt : number;
  validityMinutes : number;
  clicks : list ClickData;
  isActive : bool;
}.

Record UrlFormData := mkUrlFormData {
  f_originalUrl : jsstring;
  customShortCode : jsstring;
  f_validityMinutes : number;
}.

Inductive Level := info_level | warn_level | error_level | debug_level.

Record LogEvent := mkLogEvent {
  l_id : jsstring;
  l_timestamp : number;
  level : Level;
  message : jsstring;
  data : any;
  source : option jsstring;
}.

(** Per-request field errors and the per-index errors of a batch. *)
Abbreviation FormErrors := (gmap string jsstring).
Abbreviation AllErrors := (gmap nat (gmap string jsstring)).

(** ** What the browser provides *)

Class Browser := {
  (** outcome of the k-th call of [Math.random()] *)
  Math_random : nat -> Q;
  Math_random_range : forall k, (0 <= Math_random k)%Q /\ (Math_random k < 1)%Q;
  (** outcome of the k-th call of [Date.now()], in milliseconds *)
  Date_now : nat -> Z;
  (** [new URL(s)] does not throw *)
  URL_parses : jsstring -> bool;
  (** the storage quota: [setItem] throws when the result would not fit *)
  storage_fits : gmap string jsstring -> bool;
  (** [x.toString(radix)] and the conversion done by template literals *)
  Number_toString : number -> nat -> jsstring;
  (** [JSON.stringify] and [JSON.parse] ([None]: a SyntaxError is thrown) *)
  JSON_stringify_urls : list ShortenedUrl -> jsstring;
  JSON_parse_urls : jsstring -> option (list ShortenedUrl);
  JSON_stringify_logs : list LogEvent -> jsstring;
  JSON_parse_logs : jsstring -> option (list LogEvent);
  navigator_userAgent : jsstring;
  document_referrer : jsstring;
}.

(** ** The world and the state monad *)

Record World := mkWorld {
  localStorage : gmap string jsstring;
  logs : list LogEvent;                 (* logger.logs *)
  draws : nat;                          (* calls of Math.random so far *)
  ticks : nat;                          (* calls of Date.now so far *)
  shortenedUrls_cell : list ShortenedUrl;  (* useState of useUrlStorage *)
  forms_cell : list UrlFormData;           (* useState of the form *)
  errors_cell : AllErrors;
  successMessage_cell : jsstring;
  error_cell : jsstring;                   (* useState of RedirectHandler *)
  redirecting_cell : bool;
  countdownInterval : option jsstring;     (* armed interval and its target *)
}.

Definition M (A : Type) : Type := World -> A * World.

Definition ret {A} (a : A) : M A := fun w => (a, w).

Definition bind {A B} (m : M A) (k : A -> M B) : M B :=
  fun w => let (a, w') := m w in k a w'.

Notation "x <- c1 ;; c2" := (bind c1 (fun x => c2))
  (at level 100, c1 at next level, right associativity).
Notation "c1 ;; c2" := (bind c1 (fun _ => c2))
  (at level 100, right associativity).

Definition get {A} (f : World -> A) : M A := fun w => (f w, w).
Definition modify (f : World -> World) : M unit := fun w => (tt, f w).

Definition set_localStorage (v : gmap string jsstring) (w : World) : World :=
  mkWorld v (logs w) (draws w) (ticks w) (shortenedUrls_cell w) (forms_cell w)
    (errors_cell w) (successMessage_cell w) (error_cell w) (redirecting_cell w)
    (countdownInterval w).
Definition set_logs (v : list LogEvent) (w : World) : World :=
  mkWorld (localStorage w) v (draws w) (ticks w) (shortenedUrls_cell w)
    (forms_cell w) (errors_cell w) (successMessage_cell w) (error_cell w)
    (redirecting_cell w) (countdownInterval w).
Definition set_draws (v : nat) (w : World) : World :=
  mkWorld (localStorage w) (logs w) v (ticks w) (shortenedUrls_cell w)
    (forms_cell w) (errors_cell w) (successMessage_cell w) (error_cell w)
    (redirecting_cell w) (countdownInterval w).
Definition set_ticks (v : nat) (w : World) : World :=
  mkWorld (localStorage w) (logs w) (draws w) v (shortenedUrls_cell w)
    (forms_cell w) (errors_cell w) (successMessage_cell w) (error_cell w)
    (redirecting_cell w) (countdownInterval w).
Definition set_shortenedUrls_cell (v : list ShortenedUrl) (w : World) : World :=
  mkWorld (localStorage w) (logs w) (draws w) (ticks w) v (forms_cell w)
    (errors_cell w) (successMessage_cell w) (error_cell w) (redirecting_cell w)
    (countdownInterval w).
Definition set_forms_cell (v : list UrlFormData) (w : World) : World :=
  mkWorld (localStorage w) (logs w) (draws w) (ticks w) (shortenedUrls_cell w)
    v (errors_cell w) (successMessage_cell w) (error_cell w)
    (redirecting_cell w) (countdownInterval w).
Definition set_errors_cell (v : AllErrors) (w : World) : World :=
  mkWorld (localStorage w) (logs w) (draws w) (ticks w) (shortenedUrls_cell w)
    (forms_cell w) v (successMessage_cell w) (error_cell w)
    (redirecting_cell w) (countdownInterval w).
Definition set_successMessage_cell (v : jsstring) (w : World) : World :=
  mkWorld (localStorage w) (logs w) (draws w) (ticks w) (shortenedUrls_cell w)
    (forms_cell w) (errors_cell w) v (error_cell w) (redirecting_cell w)
    (countdownInterval w).
Definition set_error_cell (v : jsstring) (w : World) : World :=
  mkWorld (localStorage w) (logs w) (draws w) (ticks w) (shortenedUrls_cell w)
    (forms_cell w) (errors_cell w) (successMessage_cell w) v
    (redirecting_cell w) (countdownInterval w).
Definition set_redirecting_cell (v : bool) (w : World) : World :=
  mkWorld (localStorage w) (logs w) (draws w) (ticks w) (shortenedUrls_cell w)
    (forms_cell w) (errors_cell w) (successMessage_cell w) (error_cell w) v
    (countdownInterval w).
Definition set_countdownInterval (v : option jsstring) (w : World) : World :=
  mkWorld (localStorage w) (logs w) (draws w) (ticks w) (shortenedUrls_cell w)
    (forms_cell w) (errors_cell w) (successMessage_cell w) (error_cell w)
    (redirecting_cell w) v.

(** [forEach] over an array with an effectful callback. *)
Fixpoint forEach {A} (f : A -> M unit) (l : list A) : M unit :=
  match l with
  | [] => ret tt
  | x :: l' => f x ;; forEach f l'
  end.

(** ** Calls into the browser *)

Section browser_calls.
Context `{Browser}.

(** [Math.random()] *)
Definition Math_random_call : M Q :=
  fun w => (Math_random (draws w), set_draws (S (draws w)) w).

(** [Date.now()] *)
Definition Date_now_call : M number :=
  fun w => (of_Z (Date_now (ticks w)), set_ticks (S (ticks w)) w).

(** [localStorage.getItem(key)] ([None] is [null]) *)
Definition getItem (key : string) : M (option jsstring) :=
  get (fun w => localStorage w !! key).

(** [localStorage.setItem(key, value)]: [false] when it throws because the
    quota is exceeded, in which case nothing is stored. *)
Definition setItem (key : string) (value : jsstring) : M bool :=
  fun w =>
    let st := <[key := value]> (localStorage w) in
    if storage_fits st then (true, set_localStorage st w) else (false, w).

(** [localStorage.removeItem(key)] *)
Definition removeItem (key : string) : M unit :=
  modify (fun w => set_localStorage (delete key (localStorage w)) w).

(** [Math.random().toString(36).substr(2, 9)], the expression used for
    every identifier. *)
Definition random_id : M jsstring :=
  r <- Math_random_call ;;
  ret (substr (Number_toString (Fin r) 36) 2 9).
End browser_calls.

(** ** [utils/logger.ts]: the event log *)

Module Logger.
Section logger.
Context `{Browser}.

Definition maxLogs : nat := 1000.

Definition generateId : M jsstring := random_id.

(** The [try] swallows a failing [setItem]. *)
Definition saveLogs : M unit :=
  l <- get logs ;;
  _ <- setItem "app-logs" (JSON_stringify_logs l) ;;
  ret tt.

Definition addLog (level : Level) (message : jsstring) (data : any)
    (source : option jsstring) : M unit :=
  id <- generateId ;;
  timestamp <- Date_now_call ;;
  let logEvent := mkLogEvent id timestamp level message data source in
  (* this.logs.unshift(logEvent) *)
  modify (fun w => set_logs (logEvent :: logs w) w) ;;
  (* keep only the latest logs *)
  l <- get logs ;;
  (if (maxLogs <? length l)%nat
   then modify (set_logs (take maxLogs l))
   else ret tt) ;;
  saveLogs.

Definition loadLogs : M unit :=
  storedLogs <- getItem "app-logs" ;;
  match storedLogs with
  | Some text =>
      if truthy text then
        match JSON_parse_logs text with
        | Some l => modify (set_logs l)
        | None => modify (set_logs [])        (* catch: this.logs = [] *)
        end
      else ret tt
  | None => ret tt
  end.

Definition info := addLog info_level.
Definition warn := addLog warn_level.
Definition error := addLog error_level.
Definition debug := addLog debug_level.

Definition getLogs : M (list LogEvent) := get logs.

Definition clearLogs : M unit :=
  modify (set_logs []) ;;
  removeItem "app-logs".

(** [new Logger()]: the field initialiser, then [loadLogs]. *)
Definition constructor : M unit :=
  modify (set_logs []) ;;
  loadLogs.
End logger.
End Logger.

(** ** [utils/urlUtils.ts]: identifier utilities *)

Module urlUtils.
Section urlUtils.
Context `{Browser}.

Definition validateUrl (url : jsstring) : bool := URL_parses url.

Definition code_unit (c : ascii) : N := N_of_ascii c.

Definition in_range (lo hi : ascii) (c : N) : bool :=
  (code_unit lo <=? c)%N && (c <=? code_unit hi)%N.

(** The character class [[a-zA-Z0-9]]. *)
Definition alphanumeric_class (c : N) : bool :=
  in_range "a" "z" c || in_range "A" "Z" c || in_range "0" "9" c.

(** [/^[a-zA-Z0-9]+$/.test(s)]: one or more units of the class, and
    nothing else. *)
Definition alphanumericRegex_test (s : jsstring) : bool :=
  match s with
  | [] => false
  | _ => forallb alphanumeric_class s
  end.

Definition validateShortCode (shortCode : jsstring) : bool :=
  alphanumericRegex_test shortCode
  && (3 <=? length shortCode)%nat && (length shortCode <=? 20)%nat.

Definition chars : jsstring :=
  lit "abcdefghijklmnopqrstuvwxyzABCDEFGHIJKLMNOPQRSTUVWXYZ0123456789".

(** The body of the [for] loop, run [n] more times. *)
Fixpoint generate_loop (n : nat) (result : jsstring) : M jsstring :=
  match n with
  | O => ret result
  | S n' =>
      r <- Math_random_call ;;
      generate_loop n'
        (result ++ charAt chars
           (Math_floor (num_mul (Fin r) (of_nat (length chars)))))
  end.

Definition generateRandomShortCode : M jsstring :=
  result <- generate_loop 6 [] ;;
  Logger.info (lit "Generated random shortcode")
    (Obj [("shortCode", Str result)]) (Some (lit "urlUtils")) ;;
  ret result.

Definition isShortCodeUnique (code : jsstring)
    (existingUrls : list ShortenedUrl) : bool :=
  negb (existsb (fun url => str_eq (shortCode url) code) existingUrls).

Definition locations : list jsstring :=
  [lit "New York, US"; lit "London, UK"; lit "Tokyo, JP";
   lit "Sydney, AU"; lit "Berlin, DE"; lit "Mumbai, IN"].

(** The index is always in range ([Math_random_range]); the empty string
    stands for the [undefined] of an index out of range. *)
Definition getCoarseLocation : M jsstring :=
  r <- Math_random_call ;;
  ret (default []
         (array_get locations
            (Math_floor (num_mul (Fin r) (of_nat (length locations)))))).

Definition octet : M jsstring :=
  r <- Math_random_call ;;
  ret (Number_toString (Math_floor (num_mul (Fin r) (of_Z 255))) 10).

Definition getSimulatedIP : M jsstring :=
  a <- octet ;; b <- octet ;; c <- octet ;; d <- octet ;;
  ret (a ++ lit "." ++ b ++ lit "." ++ c ++ lit "." ++ d).
End urlUtils.
End urlUtils.

(** ** [hooks/useUrlStorage.ts]: the record store *)

Module useUrlStorage.
Section hook.
Context `{Browser}.

(** The value of the state as captured by the closures of one render. *)
Variable shortenedUrls : list ShortenedUrl.

Definition setShortenedUrls (urls : list ShortenedUrl) : M unit :=
  modify (set_shortenedUrls_cell urls).

Definition count_of (urls : list ShortenedUrl) : any :=
  Obj [("count", Num (of_nat (length urls)))].

Definition loadUrls : M unit :=
  stored <- getItem "shortened-urls" ;;
  match stored with
  | Some text =>
      if truthy text then
        match JSON_parse_urls text with
        | Some urls =>
            setShortenedUrls urls ;;
            Logger.info (lit "Loaded URLs from storage") (count_of urls)
              (Some (lit "useUrlStorage"))
        | None =>
            Logger.error (lit "Failed to load URLs from storage")
              (Exn "SyntaxError") (Some (lit "useUrlStorage"))
        end
      else ret tt
  | None => ret tt
  end.

Definition saveUrls (urls : list ShortenedUrl) : M unit :=
  stored <- setItem "shortened-urls" (JSON_stringify_urls urls) ;;
  if (stored : bool) then
    setShortenedUrls urls ;;
    Logger.info (lit "Saved URLs to storage") (count_of urls)
      (Some (lit "useUrlStorage"))
  else
    Logger.error (lit "Failed to save URLs to storage")
      (Exn "QuotaExceededError") (Some (lit "useUrlStorage")).

Definition addUrl (url : ShortenedUrl) : M unit :=
  let updatedUrls := shortenedUrls ++ [url] in
  saveUrls updatedUrls ;;
  Logger.info (lit "Added new shortened URL")
    (Obj [("shortCode", Str (shortCode url));
          ("originalUrl", Str (originalUrl url))])
    (Some (lit "useUrlStorage")).

(** [{...url, clicks: [...url.clicks, clickData]}] *)
Definition with_click (url : ShortenedUrl) (clickData : ClickData)
    : ShortenedUrl :=
  mkShortenedUrl (u_id url) (originalUrl url) (shortCode url)
    (createdAt url) (expiresAt url) (validityMinutes url)
    (clicks url ++ [clickData]) (isActive url).

Definition addClick (code : jsstring) (clickData : ClickData) : M unit :=
  let updatedUrls :=
    (fun url =>
       if str_eq (shortCode url) code then with_click url clickData
       else url) <$> shortenedUrls in
  saveUrls updatedUrls ;;
  Logger.info (lit "Added click data")
    (Obj [("shortCode", Str code); ("clickId", Str (c_id clickData))])
    (Some (lit "useUrlStorage")).

Definition findUrlByShortCode (code : jsstring) : option ShortenedUrl :=
  List.find (fun url => str_eq (shortCode url) code && isActive url)
    shortenedUrls.

Definition isUrlExpired (url : ShortenedUrl) : M bool :=
  now <- Date_now_call ;;
  ret (num_gt now (expiresAt url)).

(** [filter(url => url.isActive && !isUrlExpired(url))]: the clock is
    read once for every active record. *)
Fixpoint filter_active (urls : list ShortenedUrl) : M (list ShortenedUrl) :=
  match urls with
  | [] => ret []
  | url :: rest =>
      keep <- (if isActive url
               then expired <- isUrlExpired url ;; ret (negb expired)
               else ret false) ;;
      kept <- filter_active rest ;;
      ret (if (keep : bool) then url :: kept else kept)
  end.

Definition getActiveUrls : M (list ShortenedUrl) :=
  filter_active shortenedUrls.

Definition getAllUrls : list ShortenedUrl := shortenedUrls.

Definition clearAllUrls : M unit :=
  removeItem "shortened-urls" ;;
  setShortenedUrls [] ;;
  Logger.info (lit "Cleared all URLs") (Obj [])
    (Some (lit "useUrlStorage")).
End hook.
End useUrlStorage.

(** ** [components/UrlShortenerForm.tsx]: the submission validator *)

(** [Array.prototype.findIndex]: the first position whose element satisfies
    the predicate, or -1. *)
Fixpoint findIndex_from {A} (p : A -> bool) (l : list A) (i : Z) : Z :=
  match l with
  | [] => (-1)%Z
  | x :: l' => if p x then i else findIndex_from p l' (i + 1)%Z
  end.

Definition findIndex {A} (p : A -> bool) (l : list A) : Z :=
  findIndex_from p l 0.

(** [Array.prototype.filter] with a callback that also takes the position. *)
Fixpoint filter_from {A} (p : A -> nat -> bool) (l : list A) (i : nat)
    : list A :=
  match l with
  | [] => []
  | x :: l' =>
      if p x i then x :: filter_from p l' (S i) else filter_from p l' (S i)
  end.

Definition filter_index {A} (p : A -> nat -> bool) (l : list A) : list A :=
  filter_from p l 0.

(** The objects [{ code, index }] built by [validateAllForms]. *)
Record CodeAt := mkCodeAt { code : jsstring; index : nat }.

Module UrlShortenerForm.
Section component.
Context `{Browser}.

(** Values captured by the closures of one render. *)
Variable shortenedUrls : list ShortenedUrl.
Variable forms : list UrlFormData.
Variable errors : AllErrors.

Definition setForms (v : list UrlFormData) : M unit :=
  modify (set_forms_cell v).
Definition setErrors (v : AllErrors) : M unit :=
  modify (set_errors_cell v).
Definition setSuccessMessage (v : jsstring) : M unit :=
  modify (set_successMessage_cell v).

Definition blank_form : UrlFormData := mkUrlFormData [] [] (of_Z 30).

Definition validateForm (index : nat) (form : UrlFormData) : FormErrors :=
  let formErrors : FormErrors := ∅ in
  let formErrors :=
    if negb (truthy (trim (f_originalUrl form))) then
      <["originalUrl" := lit "URL is required"]> formErrors
    else if negb (urlUtils.validateUrl (f_originalUrl form)) then
      <["originalUrl" := lit "Please enter a valid URL"]> formErrors
    else formErrors in
  let formErrors :=
    if truthy (trim (customShortCode form)) then
      if negb (urlUtils.validateShortCode (customShortCode form)) then
        <["customShortCode" :=
            lit "Shortcode must be 3-20 alphanumeric characters"]> formErrors
      else if negb (urlUtils.isShortCodeUnique (customShortCode form)
                      shortenedUrls) then
        <["customShortCode" := lit "This shortcode is already taken"]>
          formErrors
      else formErrors
    else formErrors in
  let formErrors :=
    if num_lt (f_validityMinutes form) (of_Z 1)
       || num_gt (f_validityMinutes form) (of_Z 43200) then
      <["validityMinutes" :=
          lit "Validity must be between 1 and 43200 minutes"]> formErrors
    else formErrors in
  formErrors.

(** The callback of the first [forms.forEach], on the pair
    [(allErrors, hasErrors)] of local variables. *)
Definition check_form (acc : AllErrors * bool) (at_index : nat * UrlFormData)
    : AllErrors * bool :=
  let formErrors := validateForm at_index.1 at_index.2 in
  if (0 <? size formErrors)%nat
  then (<[at_index.1 := formErrors]> acc.1, true)
  else acc.

Definition duplicate_message : jsstring :=
  lit "Duplicate shortcode in current forms".

(** The callback of [duplicates.forEach]. *)
Definition flag_duplicate (acc : AllErrors * bool) (duplicate : CodeAt)
    : AllErrors * bool :=
  let allErrors :=
    match acc.1 !! index duplicate with
    | None => <[index duplicate := ∅]> acc.1
    | Some _ => acc.1
    end in
  (<[index duplicate :=
       <["customShortCode" := duplicate_message]>
         (default ∅ (allErrors !! index duplicate))]> allErrors,
   true).

Definition shortCodes : list CodeAt :=
  List.filter (fun item => truthy (code item))
    (imap (fun index form => mkCodeAt (trim (customShortCode form)) index)
       forms).

Definition duplicates : list CodeAt :=
  filter_index
    (fun item index =>
       negb (findIndex (fun other => str_eq (code other) (code item))
               shortCodes =? Z.of_nat index)%Z)
    shortCodes.

(** The two passes of [validateAllForms], before [setErrors]. *)
Definition collect_errors : AllErrors * bool :=
  let checked := foldl check_form (∅, false) (imap pair forms) in
  foldl flag_duplicate checked duplicates.

Definition validateAllForms : M bool :=
  let '(allErrors, hasErrors) := collect_errors in
  setErrors allErrors ;;
  ret (negb hasErrors).

Definition errors_to_any (e : AllErrors) : any :=
  Obj ((fun entry : nat * FormErrors =>
          (pretty entry.1,
           Obj ((fun field : string * jsstring => (field.1, Str field.2))
                  <$> map_to_list entry.2)))
         <$> map_to_list e).

(** The record built by the callback of the second [forms.forEach]. *)
Definition createUrl (form : UrlFormData) : M ShortenedUrl :=
  shortCode <- (if truthy (trim (customShortCode form))
                then ret (trim (customShortCode form))
                else urlUtils.generateRandomShortCode) ;;
  now <- Date_now_call ;;
  let expiresAt :=
    num_add now
      (num_mul (num_mul (f_validityMinutes form) (of_Z 60)) (of_Z 1000)) in
  id <- random_id ;;
  ret (mkShortenedUrl id (f_originalUrl form) shortCode now expiresAt
         (f_validityMinutes form) [] true).

(** The second [forms.forEach]: returns [createdUrls]. *)
Fixpoint createAll (pending : list UrlFormData)
    (createdUrls : list ShortenedUrl) : M (list ShortenedUrl) :=
  match pending with
  | [] => ret createdUrls
  | form :: rest =>
      shortenedUrl <- createUrl form ;;
      useUrlStorage.addUrl shortenedUrls shortenedUrl ;;
      createAll rest (createdUrls ++ [shortenedUrl])
  end.

(** [handleSubmit], returning the records it created. *)
Definition submit : M (list ShortenedUrl) :=
  setSuccessMessage [] ;;
  valid <- validateAllForms ;;
  if negb valid then
    Logger.warn (lit "Form validation failed")
      (Obj [("errors", errors_to_any errors)])
      (Some (lit "UrlShortenerForm")) ;;
    ret []
  else
    createdUrls <- createAll forms [] ;;
    setSuccessMessage
      (lit "Successfully created "
       ++ Number_toString (of_nat (length createdUrls)) 10
       ++ lit " short URL"
       ++ (if (1 <? length createdUrls)%nat then lit "s" else [])
       ++ lit "!") ;;
    setForms [blank_form] ;;
    Logger.info (lit "Successfully created short URLs")
      (Obj [("count", Num (of_nat (length createdUrls)));
            ("shortCodes", Arr ((fun url => Str (shortCode url))
                                  <$> createdUrls))])
      (Some (lit "UrlShortenerForm")) ;;
    ret createdUrls.

Definition handleSubmit : M unit :=
  _ <- submit ;; ret tt.
Definition addForm : M unit :=
  if (length forms <? 5)%nat then
    setForms (forms ++ [blank_form]) ;;
    Logger.info (lit "Added new URL form")
      (Obj [("totalForms", Num (num_add (of_nat (length forms)) (of_Z 1)))])
      (Some (lit "UrlShortenerForm"))
  else ret tt.

Definition removeForm (index : nat) : M unit :=
  if (1 <? length forms)%nat then
    let newForms :=
      filter_index (fun _ i => negb (i =? index)%nat) forms in
    setForms newForms ;;
    setErrors (delete index errors) ;;
    Logger.info (lit "Removed URL form")
      (Obj [("index", Num (of_nat index));
            ("remainingForms", Num (of_nat (length newForms)))])
      (Some (lit "UrlShortenerForm"))
  else ret tt.

(** The value the validity input hands to [updateForm]:
    [parseInt(e.target.value) || 30]. *)
Definition validity_input (value : jsstring) : number :=
  let parsed := parseInt value in
  if truthy_num parsed then parsed else of_Z 30.
End component.
End UrlShortenerForm.

(** ** [components/RedirectHandler.tsx]: the redirect resolver *)

(** The states of a redirect attempt. *)
Inductive ResolverState := Resolving | NotFound | Expired | Redirecting.

Module RedirectHandler.
Section component.
Context `{Browser}.

(** [useParams()]: [None] when the route has no short code. *)
Variable shortCode : option jsstring.
Variable shortenedUrls : list ShortenedUrl.

Definition setError (v : jsstring) : M unit := modify (set_error_cell v).
Definition setRedirecting (v : bool) : M unit :=
  modify (set_redirecting_cell v).

Definition invalid_message : jsstring := lit "Invalid short code".
Definition not_found_message : jsstring := lit "Short URL not found".
Definition expired_message : jsstring := lit "This short URL has expired".

(** The body of the effect, up to the arming of the countdown. *)
Definition effect : M unit :=
  match shortCode with
  | None | Some [] =>
      setError invalid_message ;;
      setRedirecting false
  | Some code =>
      match useUrlStorage.findUrlByShortCode shortenedUrls code with
      | None =>
          Logger.warn (lit "Short code not found")
            (Obj [("shortCode", Str code)]) (Some (lit "RedirectHandler")) ;;
          setError not_found_message ;;
          setRedirecting false
      | Some shortenedUrl =>
          expired <- useUrlStorage.isUrlExpired shortenedUrl ;;
          if (expired : bool) then
            Logger.warn (lit "Attempted to access expired URL")
              (Obj [("shortCode", Str code);
                    ("expiresAt", Num (expiresAt shortenedUrl))])
              (Some (lit "RedirectHandler")) ;;
            setError expired_message ;;
            setRedirecting false
          else
            id <- random_id ;;
            timestamp <- Date_now_call ;;
            ip <- urlUtils.getSimulatedIP ;;
            location <- urlUtils.getCoarseLocation ;;
            let clickData :=
              mkClickData id timestamp navigator_userAgent document_referrer
                ip location in
            useUrlStorage.addClick shortenedUrls code clickData ;;
            Logger.info (lit "Recorded click and redirecting")
              (Obj [("shortCode", Str code);
                    ("originalUrl", Str (originalUrl shortenedUrl));
                    ("clickId", Str (c_id clickData))])
              (Some (lit "RedirectHandler")) ;;
            modify (set_countdownInterval (Some (originalUrl shortenedUrl)))
      end
  end.

(** The state shown for the values of the state cells: the error screen
    is rendered whenever [error] is non-empty. *)
Definition state_of (w : World) : ResolverState :=
  if truthy (error_cell w) then
    if str_eq (error_cell w) expired_message then Expired else NotFound
  else
    match countdownInterval w with
    | Some _ => Redirecting
    | None => Resolving
    end.
End component.

(** The runs of the effect.  Its dependencies are functions that the hook
    creates anew at every render, so the effect runs after each render.
    On mount the hook's state is still its initial [[]]
    ([useState<ShortenedUrl[]>([])]): whatever the hook's own effect has
    loaded, the closures of the first render hold no record. *)
Definition mount_run `{Browser} (route : option jsstring) : M unit :=
  effect route [].

(** After a later render the closures hold the records then in state. *)
Definition render_run `{Browser} (route : option jsstring) : M unit :=
  fun w => effect route (shortenedUrls_cell w) w.
End RedirectHandler.

(** ** [components/Statistics.tsx]: the statistics view *)

Module Statistics.
Section component.
Context `{Browser}.

Variable shortenedUrls : list ShortenedUrl.

(** [window.confirm] answers [confirmed]. *)
Definition handleClearAll (confirmed : bool) : M unit :=
  if confirmed then
    useUrlStorage.clearAllUrls ;;
    Logger.info (lit "Cleared all URLs and statistics") (Obj [])
      (Some (lit "Statistics"))
  else ret tt.

Definition isExpired (url : ShortenedUrl) : M bool :=
  now <- Date_now_call ;;
  ret (num_gt now (expiresAt url)).

(** [allUrls.reduce((sum, url) => sum + url.clicks.length, 0)] *)
Definition totalClicks : number :=
  foldl (fun sum url => num_add sum (of_nat (length (clicks url))))
    (of_Z 0) shortenedUrls.

Definition formatDuration (minutes : number) : jsstring :=
  if num_lt minutes (of_Z 60) then
    Number_toString minutes 10 ++ lit "m"
  else if num_lt minutes (of_Z 1440) then
    Number_toString (Math_floor (num_div minutes (of_Z 60))) 10
    ++ lit "h "
    ++ Number_toString (num_rem minutes (of_Z 60)) 10 ++ lit "m"
  else
    Number_toString (Math_floor (num_div minutes (of_Z 1440))) 10
    ++ lit "d "
    ++ Number_toString
         (Math_floor (num_div (num_rem minutes (of_Z 1440)) (of_Z 60))) 10
    ++ lit "h".
End component.
End Statistics.

(** * Vocabulary of the statements *)

(** The 62 characters [A-Za-z0-9] the specification speaks of. *)
Definition alphabet : list N :=
  lit "ABCDEFGHIJKLMNOPQRSTUVWXYZabcdefghijklmnopqrstuvwxyz0123456789".

(** [w'] differs from [w] at most in what logging touches: the log, its
    persisted copy, and the counts of random draws and clock readings. *)
Record log_only (w w' : World) : Prop := {
  same_storage : forall key : string,
    key <> "app-logs" -> localStorage w' !! key = localStorage w !! key;
  same_shortenedUrls : shortenedUrls_cell w' = shortenedUrls_cell w;
  same_forms : forms_cell w' = forms_cell w;
  same_errors : errors_cell w' = errors_cell w;
  same_successMessage : successMessage_cell w' = successMessage_cell w;
  same_error : error_cell w' = error_cell w;
  same_redirecting : redirecting_cell w' = redirecting_cell w;
  same_countdown : countdownInterval w' = countdownInterval w;
}.

(** The records in memory and in the storage are those of [w]. *)
Definition records_unchanged (w w' : World) : Prop :=
  shortenedUrls_cell w' = shortenedUrls_cell w
  /\ localStorage w' !! "shortened-urls" =
     localStorage w !! "shortened-urls".

(** The invariant of the data model:
    [expiresAt == createdAt + validityMinutes * 60000]. *)
Definition expiry_invariant (record : ShortenedUrl) : Prop :=
  same_number (expiresAt record)
    (num_add (createdAt record)
       (num_mul (validityMinutes record) (of_Z 60000))).

Definition validity_message : jsstring :=
  lit "Validity must be between 1 and 43200 minutes".

(** The validity is below 1 or above 43200. *)
Definition out_of_range (v : number) : Prop :=
  match v with
  | Fin q => (q < 1)%Q \/ (43200 < q)%Q
  | NaN => False
  | Infinity | NegInfinity => True
  end.

(** The validities a request of the form can carry: the 30 of a blank form
    ([useState], [addForm] and the reset after a submission), or what the
    validity input hands to [updateForm] for a typed text. *)
Definition form_validity (v : number) : Prop :=
  v = f_validityMinutes UrlShortenerForm.blank_form
  \/ exists value : jsstring, v = UrlShortenerForm.validity_input value.

(** The value is an integer of [1, 43200]. *)
Definition integer_in_range (v : number) : Prop :=
  exists z : Z, same_number v (of_Z z) /\ (1 <= z <= 43200)%Z.

(** The entry of request [j] carries the duplicate error. *)
Definition flagged_duplicate (allErrors : AllErrors) (j : nat) : Prop :=
  exists formErrors : FormErrors,
    allErrors !! j = Some formErrors
    /\ formErrors !! "customShortCode" =
       Some UrlShortenerForm.duplicate_message.

(** Request [j] of the batch has the same trimmed custom code, not empty,
    as an earlier request. *)
Definition repeats_earlier_code (forms : list UrlFormData) (j : nat) : Prop :=
  exists (i : nat) (first second : UrlFormData),
    (i < j)%nat
    /\ forms !! i = Some first /\ forms !! j = Some second
    /\ trim (customShortCode first) = trim (customShortCode second)
    /\ trim (customShortCode second) <> [].

(** The collection [addClick] hands to [saveUrls]. *)
Definition clicked (shortenedUrls : list ShortenedUrl) (code : jsstring)
    (clickData : ClickData) : list ShortenedUrl :=
  (fun url =>
     if str_eq (shortCode url) code
     then useUrlStorage.with_click url clickData
     else url) <$> shortenedUrls.

(** One append request: level, message, data and source. *)
Definition append_request : Type :=
  Level * jsstring * any * option jsstring.

Section vocabulary.
Context `{Browser}.

(** The entry appended by [addLog] in world [w]. *)
Definition appended (level : Level) (message : jsstring) (data : any)
    (source : option jsstring) (w : World) : LogEvent :=
  mkLogEvent (substr (Number_toString (Fin (Math_random (draws w))) 36) 2 9)
    (of_Z (Date_now (ticks w))) level message data source.

Definition append (request : append_request) : M unit :=
  Logger.addLog request.1.1.1 request.1.1.2 request.1.2 request.2.

(** What holds of the record made from [form]. *)
Definition created_from (form : UrlFormData) (record : ShortenedUrl)
    : Prop :=
  expiry_invariant record
  /\ clicks record = []
  /\ isActive record = true
  /\ validityMinutes record = f_validityMinutes form
  /\ (f_validityMinutes form = of_Z 30 ->
      same_number (expiresAt record)
        (num_add (createdAt record) (of_Z 1800000)))
  /\ (customShortCode form = [] ->
      (exists w' : World,
         shortCode record = (urlUtils.generateRandomShortCode w').1)
      /\ length (shortCode record) = 6%nat
      /\ Forall (fun c => c ∈ alphabet) (shortCode record)).

(** Where the short code of the record made from [form] comes from: the
    trimmed custom code when there is one, the generator otherwise. *)
Definition coded_from (form : UrlFormData) (record : ShortenedUrl) : Prop :=
  (trim (customShortCode form) <> [] ->
   shortCode record = trim (customShortCode form))
  /\ (trim (customShortCode form) = [] ->
      exists w' : World,
        shortCode record = (urlUtils.generateRandomShortCode w').1).

(** [url] with the clicks [added] after its own. *)
Definition with_clicks (url : ShortenedUrl) (added : list ClickData)
    : ShortenedUrl :=
  mkShortenedUrl (u_id url) (originalUrl url) (shortCode url)
    (createdAt url) (expiresAt url) (validityMinutes url)
    (clicks url ++ added) (isActive url).

(** A click as the resolver builds it in this browser. *)
Definition browser_click (click : ClickData) : Prop :=
  userAgent click = navigator_userAgent
  /\ referrer click = document_referrer
  /\ location click ∈ urlUtils.locations.

(** [after] is [before] with [n] more clicks of the resolver when it
    carries [code], and [before] itself otherwise. *)
Definition clicks_added (code : jsstring) (n : nat)
    (before after : ShortenedUrl) : Prop :=
  if decide (shortCode before = code) then
    exists added : list ClickData,
      length added = n
      /\ Forall browser_click added
      /\ after = with_clicks before added
  else after = before.
End vocabulary.

(** ** A concrete browser, for running the model on examples *)

Definition starts_with (prefix s : jsstring) : bool :=
  str_eq (take (length prefix) s) prefix.

(** Milliseconds elapsed at the k-th reading of the sample clock. *)
Definition elapsed (k : nat) : Z :=
  match k with
  | 0%nat => 0
  | 1%nat => 59999
  | 2%nat => 60001
  | S (S (S k')) => 60002 + Z.of_nat k'
  end.

(** The random source always answers 0, the clock reads 1700000000000 ms
    first and then [elapsed] later, strings that start with [https://]
    parse as URLs, the storage never overflows and integers print in
    decimal.  The codec is a stand-in: a collection of records is written as
    the short code and the number of clicks of each record, and only the
    empty text (for records) or [[]] (for log entries) is read back. *)
Definition sample_browser : Browser := {|
  Math_random := fun _ => 0%Q;
  Math_random_range := fun _ => conj (Qle_refl 0) eq_refl;
  Date_now := fun k => (1700000000000 + elapsed k)%Z;
  URL_parses := starts_with (lit "https://");
  storage_fits := fun _ => true;
  Number_toString := fun x _ =>
    match x with
    | Fin q => lit (pretty (Qfloor q))
    | _ => lit "NaN"
    end;
  JSON_stringify_urls := fun urls =>
    concat ((fun url =>
               shortCode url ++ lit ":"
               ++ lit (pretty (length (clicks url))) ++ lit ";") <$> urls);
  JSON_parse_urls := fun text =>
    match text with [] => Some [] | _ => None end;
  JSON_stringify_logs := fun l =>
    match l with [] => lit "[]" | _ => lit "[...]" end;
  JSON_parse_logs := fun text =>
    if str_eq text (lit "[]") then Some [] else None;
  navigator_userAgent := lit "Mozilla/5.0";
  document_referrer := [];
|}.

(** The same browser with a storage that is full. *)
Definition full_browser : Browser := {|
  Math_random := fun _ => 0%Q;
  Math_random_range := fun _ => conj (Qle_refl 0) eq_refl;
  Date_now := @Date_now sample_browser;
  URL_parses := @URL_parses sample_browser;
  storage_fits := fun _ => false;
  Number_toString := @Number_toString sample_browser;
  JSON_stringify_urls := @JSON_stringify_urls sample_browser;
  JSON_parse_urls := @JSON_parse_urls sample_browser;
  JSON_stringify_logs := @JSON_stringify_logs sample_browser;
  JSON_parse_logs := @JSON_parse_logs sample_browser;
  navigator_userAgent := @navigator_userAgent sample_browser;
  document_referrer := @document_referrer sample_browser;
|}.

(** The log entry and the record the codec of [codec_browser] knows. *)
Definition known_entry : LogEvent :=
  mkLogEvent [] (of_Z 1700000000000) info_level (lit "Application started")
    undefined (Some (lit "MainApp")).

Definition known_record : ShortenedUrl :=
  mkShortenedUrl (lit "k3x9p2q1z") (lit "https://example.com")
    (lit "abc123") (of_Z 0) (of_Z 60000) (of_Z 1) [] true.

(** The sample browser with a codec that writes a collection as its length
    and reads [[1]] back as the known entry or record. *)
Definition codec_browser : Browser := {|
  Math_random := fun _ => 0%Q;
  Math_random_range := fun _ => conj (Qle_refl 0) eq_refl;
  Date_now := @Date_now sample_browser;
  URL_parses := @URL_parses sample_browser;
  storage_fits := fun _ => true;
  Number_toString := @Number_toString sample_browser;
  JSON_stringify_urls := fun urls =>
    lit "[" ++ lit (pretty (length urls)) ++ lit "]";
  JSON_parse_urls := fun text =>
    if str_eq text (lit "[1]") then Some [known_record]
    else if str_eq text (lit "[0]") then Some []
    else None;
  JSON_stringify_logs := fun l =>
    lit "[" ++ lit (pretty (length l)) ++ lit "]";
  JSON_parse_logs := fun text =>
    if str_eq text (lit "[1]") then Some [known_entry]
    else if str_eq text (lit "[0]") then Some []
    else None;
  navigator_userAgent := @navigator_userAgent sample_browser;
  document_referrer := @document_referrer sample_browser;
|}.

(** A world in which nothing has happened yet. *)
Definition initial_world : World :=
  mkWorld ∅ [] 0 0 [] [UrlShortenerForm.blank_form] ∅ [] [] true None.

(** The world of the sample browser when [urls] are the records in memory
    and in the storage. *)
Definition world_holding (urls : list ShortenedUrl) : World :=
  set_shortenedUrls_cell urls
    (set_localStorage
       {[ "shortened-urls" := @JSON_stringify_urls sample_browser urls ]}
       initial_world).

(** * Properties *)

(** ** Identifier utilities *)

Lemma alphabet_size : length alphabet = 62%nat /\ NoDup alphabet.
Proof. split; [reflexivity | compute_done]. Qed.

Lemma alphanumeric_class_spec (c : N) :
  urlUtils.alphanumeric_class c = true <-> c ∈ alphabet.
Proof.
  destruct (decide (c < 128)%N) as [Hlt | Hge].
  - assert (Hall : forallb
              (fun n => Bool.eqb (urlUtils.alphanumeric_class (N.of_nat n))
                          (bool_decide (N.of_nat n ∈ alphabet)))
              (seq 0 128) = true) by (vm_compute; reflexivity).
    rewrite forallb_forall in Hall.
    specialize (Hall (N.to_nat c)).
    rewrite N2Nat.id in Hall.
    assert (Hin : In (N.to_nat c) (seq 0 128)) by (apply in_seq; lia).
    apply Hall, Bool.eqb_prop in Hin. rewrite Hin.
    apply bool_decide_eq_true.
  - split.
    + unfold urlUtils.alphanumeric_class, urlUtils.in_range, urlUtils.code_unit.
      cbn [N_of_ascii N_of_digits N.add N.mul]. intros Hc.
      apply orb_prop in Hc as [Hc | Hc];
        [ apply orb_prop in Hc as [Hc | Hc] | ];
        apply andb_prop in Hc as [_ Hc]; apply N.leb_le in Hc;
        revert Hc; vm_compute (N_of_ascii _); lia.
    + intros Hin.
      assert (Hsmall : Forall (fun a => (a < 128)%N) alphabet).
      { compute_done. }
      rewrite Forall_forall in Hsmall. apply Hsmall in Hin. lia.
Qed.

Lemma alphanumericRegex_test_spec (s : jsstring) :
  urlUtils.alphanumericRegex_test s = true <->
  s <> [] /\ Forall (fun c => c ∈ alphabet) s.
Proof.
  unfold urlUtils.alphanumericRegex_test.
  destruct s as [| c s].
  - split; [discriminate | intros [Hne _]; contradiction].
  - rewrite forallb_forall, Forall_forall.
    split.
    + intros Hall. split; [discriminate |].
      intros x Hx. apply alphanumeric_class_spec, Hall.
      by apply list_elem_of_In.
    + intros [_ Hall] x Hx. apply alphanumeric_class_spec, Hall.
      by apply list_elem_of_In.
Qed.

Lemma validateShortCode_true (s : jsstring) :
  urlUtils.validateShortCode s = true <->
  Forall (fun c => c ∈ alphabet) s /\ (3 <= length s <= 20)%nat.
Proof.
  unfold urlUtils.validateShortCode.
  rewrite !andb_true_iff, alphanumericRegex_test_spec.
  rewrite !Nat.leb_le.
  split.
  - intros [[[_ Hall] Hlo] Hhi]. auto.
  - intros [Hall [Hlo Hhi]]. repeat split; try done.
    intros ->. simpl in Hlo. lia.
Qed.

(** C8: [validateShortCode s] is true exactly when [s] consists of
    characters of [A-Za-z0-9] only and its length is between 3 and 20; it is
    false exactly when [s] contains a character outside that alphabet or its
    length is below 3 or above 20. *)
Theorem validateShortCode_spec (s : jsstring) :
  (urlUtils.validateShortCode s = true <->
   Forall (fun c => c ∈ alphabet) s /\ (3 <= length s <= 20)%nat)
  /\
  (urlUtils.validateShortCode s = false <->
   Exists (fun c => c ∉ alphabet) s
   \/ (length s < 3)%nat \/ (20 < length s)%nat).
Proof.
  split; [apply validateShortCode_true |].
  rewrite <- not_true_iff_false, validateShortCode_true.
  split.
  - intros Hnot.
    destruct (decide (Forall (fun c => c ∈ alphabet) s)) as [Hall | Hex].
    + right. destruct (decide (length s < 3)%nat); [by left | right].
      destruct (decide (20 < length s)%nat); [done |].
      exfalso. apply Hnot. split; [done | lia].
    + left. by apply not_Forall_Exists in Hex; [| apply _].
  - intros [Hex | Hlen] [Hall Hrange]; [| lia].
    by apply Exists_not_Forall in Hex.
Qed.

(** A random value of the unit interval, scaled by [n] and floored, is a
    position of an array of length [n]. *)
Lemma random_position (r : Q) (n : nat) :
  (0 <= r)%Q -> (r < 1)%Q -> (0 < n)%nat ->
  exists k : nat,
    (k < n)%nat /\
    Math_floor (num_mul (Fin r) (of_nat n)) = of_Z (Z.of_nat k).
Proof.
  intros Hlo Hhi Hn. simpl.
  set (z := Qfloor (r * inject_Z (Z.of_nat n))).
  assert (Hz0 : (0 <= z)%Z).
  { change 0%Z with (Qfloor 0). apply Qfloor_resp_le.
    apply Qmult_le_0_compat; [done |].
    change 0%Q with (inject_Z 0). rewrite <- Zle_Qle. lia. }
  assert (Hzn : (z < Z.of_nat n)%Z).
  { rewrite Zlt_Qlt.
    apply Qle_lt_trans with (r * inject_Z (Z.of_nat n))%Q;
      [apply Qfloor_le |].
    rewrite <- (Qmult_1_l (inject_Z (Z.of_nat n))) at 2.
    apply Qmult_lt_compat_r; [| done].
    change 0%Q with (inject_Z 0). rewrite <- Zlt_Qlt. lia. }
  exists (Z.to_nat z). split; [lia |].
  unfold of_Z. by rewrite Z2Nat.id.
Qed.

Lemma charAt_position (s : jsstring) (k : nat) :
  charAt s (of_Z (Z.of_nat k)) =
  match s !! k with Some c => [c] | None => [] end.
Proof.
  unfold charAt, of_Z, truncate. simpl.
  rewrite Z.quot_1_r.
  destruct (Z.leb_spec 0 (Z.of_nat k)); [| lia].
  by rewrite Nat2Z.id.
Qed.

Section utilities.
Context `{Browser}.

Lemma generate_loop_spec (n : nat) (result : jsstring) (w : World) :
  exists drawn : jsstring,
    (urlUtils.generate_loop n result w).1 = result ++ drawn
    /\ length drawn = n
    /\ Forall (fun c => c ∈ urlUtils.chars) drawn.
Proof.
  revert result w. induction n as [| n IH]; intros result w.
  - exists []. simpl. by rewrite app_nil_r.
  - cbn [urlUtils.generate_loop]. unfold bind, Math_random_call.
    destruct (Math_random_range (draws w)) as [Hlo Hhi].
    destruct (random_position (Math_random (draws w))
                (length urlUtils.chars) Hlo Hhi) as (k & Hk & ->).
    { vm_compute. lia. }
    rewrite charAt_position.
    destruct (lookup_lt_is_Some_2 urlUtils.chars k Hk) as [c Hc].
    rewrite Hc.
    destruct (IH (result ++ [c])
                (set_draws (S (draws w)) w)) as (drawn & -> & Hlen & Hall).
    exists (c :: drawn). rewrite <- app_assoc. simpl.
    repeat split; [by rewrite Hlen |].
    constructor; [| done]. apply list_elem_of_lookup. eauto.
Qed.

Lemma generateRandomShortCode_result (w : World) :
  (urlUtils.generateRandomShortCode w).1 = (urlUtils.generate_loop 6 [] w).1.
Proof.
  unfold urlUtils.generateRandomShortCode, bind.
  destruct (urlUtils.generate_loop 6 [] w) as [result w1].
  destruct (Logger.info _ _ _ w1). reflexivity.
Qed.

Lemma chars_in_alphabet (c : N) : c ∈ urlUtils.chars -> c ∈ alphabet.
Proof.
  assert (Hall : Forall (fun c => c ∈ alphabet) urlUtils.chars)
    by compute_done.
  rewrite Forall_forall in Hall. apply Hall.
Qed.

Lemma generated_code_shape (w : World) :
  length (urlUtils.generateRandomShortCode w).1 = 6%nat
  /\ Forall (fun c => c ∈ alphabet) (urlUtils.generateRandomShortCode w).1.
Proof.
  rewrite generateRandomShortCode_result.
  destruct (generate_loop_spec 6 [] w) as (drawn & -> & Hlen & Hall).
  simpl. split; [done |].
  eapply Forall_impl; [exact Hall | apply chars_in_alphabet].
Qed.

(** C9: whatever the random source answers, [generateRandomShortCode]
    returns exactly 6 characters, each one of the 62-character
    alphanumeric alphabet. *)
Theorem generateRandomShortCode_spec (w : World) :
  let result := (urlUtils.generateRandomShortCode w).1 in
  length result = 6%nat
  /\ Forall (fun c => c ∈ alphabet) result
  /\ length alphabet = 62%nat.
Proof.
  intros result. unfold result.
  destruct (generated_code_shape w) as [Hlen Hall].
  split; [exact Hlen |]. split; [exact Hall | reflexivity].
Qed.

(** C10: every code returned by [generateRandomShortCode] passes
    [validateShortCode]. *)
Theorem generated_code_is_valid (w : World) :
  urlUtils.validateShortCode (urlUtils.generateRandomShortCode w).1 = true.
Proof.
  rewrite generateRandomShortCode_result.
  destruct (generate_loop_spec 6 [] w) as (drawn & -> & Hlen & Hall).
  apply validateShortCode_true. simpl. split; [| lia].
  eapply Forall_impl; [exact Hall | apply chars_in_alphabet].
Qed.
End utilities.

(** ** The event log *)

Lemma bind_snd {A B} (m : M A) (k : A -> M B) (w : World) :
  (bind m k w).2 = (k (m w).1 (m w).2).2.
Proof. unfold bind. by destruct (m w). Qed.

Lemma bind_fst {A B} (m : M A) (k : A -> M B) (w : World) :
  (bind m k w).1 = (k (m w).1 (m w).2).1.
Proof. unfold bind. by destruct (m w). Qed.

(** Steps through the binds of a computation applied to a world. *)
Ltac step :=
  match goal with
  | |- context [ (bind ?m ?k ?w).2 ] => rewrite (bind_snd m k w)
  | |- context [ (bind ?m ?k ?w).1 ] => rewrite (bind_fst m k w)
  end.

Ltac run :=
  unfold random_id;
  repeat (step; cbv beta);
  unfold getItem, removeItem, Math_random_call, Date_now_call;
  unfold ret, get, modify;
  cbv beta; cbn [fst snd].

(** Reads the fields of a world built by the setters. *)
Ltac fields :=
  cbn [localStorage logs draws ticks shortenedUrls_cell forms_cell
       errors_cell successMessage_cell error_cell redirecting_cell
       countdownInterval set_localStorage set_logs set_draws set_ticks
       set_shortenedUrls_cell set_forms_cell set_errors_cell
       set_successMessage_cell set_error_cell set_redirecting_cell
       set_countdownInterval].

Lemma log_only_refl (w : World) : log_only w w.
Proof. by constructor. Qed.

Lemma log_only_trans (w1 w2 w3 : World) :
  log_only w1 w2 -> log_only w2 w3 -> log_only w1 w3.
Proof.
  intros H12 H23. constructor.
  - intros key Hkey.
    rewrite (same_storage _ _ H23 key Hkey). by apply (same_storage _ _ H12).
  - rewrite (same_shortenedUrls _ _ H23). apply (same_shortenedUrls _ _ H12).
  - rewrite (same_forms _ _ H23). apply (same_forms _ _ H12).
  - rewrite (same_errors _ _ H23). apply (same_errors _ _ H12).
  - rewrite (same_successMessage _ _ H23). apply (same_successMessage _ _ H12).
  - rewrite (same_error _ _ H23). apply (same_error _ _ H12).
  - rewrite (same_redirecting _ _ H23). apply (same_redirecting _ _ H12).
  - rewrite (same_countdown _ _ H23). apply (same_countdown _ _ H12).
Qed.

Section logger_properties.
Context `{Browser}.

Lemma saveLogs_spec (w : World) :
  logs (Logger.saveLogs w).2 = logs w /\ log_only w (Logger.saveLogs w).2
  /\ draws (Logger.saveLogs w).2 = draws w
  /\ ticks (Logger.saveLogs w).2 = ticks w.
Proof.
  unfold Logger.saveLogs, setItem. run.
  destruct (storage_fits _); cbn.
  - repeat split; try done. intros key Hkey. cbn.
    by rewrite lookup_insert_ne.
  - repeat split; done.
Qed.

Lemma addLog_logs level message data source (w : World) :
  logs (Logger.addLog level message data source w).2 =
  take Logger.maxLogs (appended level message data source w :: logs w).
Proof.
  unfold Logger.addLog, Logger.generateId. run. fields.
  fold (appended level message data source w).
  set (e := appended level message data source w).
  match goal with |- context [Logger.saveLogs ?w0] =>
    destruct (saveLogs_spec w0) as (-> & _) end.
  destruct (Nat.ltb_spec Logger.maxLogs (length (e :: logs w)))
    as [Hgt | Hle]; cbn [snd]; fields; [done |].
  by rewrite take_ge.
Qed.

Lemma addLog_log_only level message data source (w : World) :
  log_only w (Logger.addLog level message data source w).2.
Proof.
  unfold Logger.addLog, Logger.generateId. run.
  match goal with |- context [Logger.saveLogs ?w0] =>
    destruct (saveLogs_spec w0) as (_ & Hsave & _) end.
  eapply log_only_trans; [| exact Hsave].
  match goal with |- context [if ?b then _ else _] => destruct b end;
    by constructor.
Qed.

Lemma addLog_counts level message data source (w : World) :
  draws (Logger.addLog level message data source w).2 = S (draws w)
  /\ ticks (Logger.addLog level message data source w).2 = S (ticks w).
Proof.
  unfold Logger.addLog, Logger.generateId. run.
  match goal with |- context [Logger.saveLogs ?w0] =>
    destruct (saveLogs_spec w0) as (_ & _ & -> & ->) end.
  match goal with |- context [if ?b then _ else _] => destruct b end;
    done.
Qed.

Lemma forEach_app {A} (f : A -> M unit) (l1 l2 : list A) (w : World) :
  (forEach f (l1 ++ l2) w).2 = (forEach f l2 (forEach f l1 w).2).2.
Proof.
  revert w. induction l1 as [| x l1 IH]; intros w; [done |].
  cbn [forEach app]. rewrite !bind_snd. apply IH.
Qed.

(** C7: from any log state and after any sequence of appends, the log
    holds at most 1000 entries and the entry appended last comes first
    (it is the capped log with the new entry put in front); and a load
    whose persisted value does not parse leaves the log empty. *)
Theorem log_capped_and_load_resets :
  (forall (w : World) (before : list append_request)
          (request : append_request),
     let w1 := (forEach append before w).2 in
     let w2 := (forEach append (before ++ [request]) w).2 in
     let entry :=
       appended request.1.1.1 request.1.1.2 request.1.2 request.2 w1 in
     (length (logs w2) <= 1000)%nat
     /\ logs w2 !! 0%nat = Some entry
     /\ logs w2 = take 1000 (entry :: logs w1))
  /\
  (forall (w : World) (text : jsstring),
     localStorage w !! "app-logs" = Some text ->
     text <> [] ->
     JSON_parse_logs text = None ->
     logs (Logger.loadLogs w).2 = []).
Proof.
  split.
  - intros w before request w1 w2 entry.
    assert (Hlogs : logs w2 = take Logger.maxLogs (entry :: logs w1)).
    { unfold w2. rewrite forEach_app. fold w1.
      cbn [forEach]. run. unfold append, entry. apply addLog_logs. }
    split; [| split]; [| | exact Hlogs].
    + rewrite Hlogs, length_take. unfold Logger.maxLogs. lia.
    + rewrite Hlogs. reflexivity.
  - intros w text Hstored Hne Hparse.
    unfold Logger.loadLogs. run. rewrite Hstored.
    destruct text as [| c text]; [done |].
    cbn [truthy]. by rewrite Hparse.
Qed.
End logger_properties.

(** The load of a persisted value that does not parse, in a concrete
    world. *)
Lemma log_capped_and_load_resets_witness :
  logs (@Logger.loadLogs sample_browser
          (set_localStorage {[ "app-logs" := lit "{oops" ]} initial_world)).2
  = [].
Proof.
  apply (proj2 (@log_capped_and_load_resets sample_browser)) with (lit "{oops").
  - reflexivity.
  - discriminate.
  - reflexivity.
Defined.

(** ** Expiry and record creation *)

Lemma minutes_to_ms (now v : number) :
  same_number
    (num_add now (num_mul (num_mul v (of_Z 60)) (of_Z 1000)))
    (num_add now (num_mul v (of_Z 60000))).
Proof.
  destruct v as [q | | |]; destruct now as [n | | |]; try exact I.
  unfold of_Z, inject_Z. simpl. ring.
Qed.

Lemma validateAllForms_result `{Browser} (shortenedUrls : list ShortenedUrl)
    (forms : list UrlFormData) (w : World) :
  UrlShortenerForm.validateAllForms shortenedUrls forms w =
  (negb (UrlShortenerForm.collect_errors shortenedUrls forms).2,
   set_errors_cell (UrlShortenerForm.collect_errors shortenedUrls forms).1 w).
Proof.
  unfold UrlShortenerForm.validateAllForms.
  by destruct (UrlShortenerForm.collect_errors shortenedUrls forms).
Qed.

Section expiry.
Context `{Browser}.

Lemma isUrlExpired_result (record : ShortenedUrl) (w : World) :
  (useUrlStorage.isUrlExpired record w).1 =
  num_gt (of_Z (Date_now (ticks w))) (expiresAt record).
Proof. unfold useUrlStorage.isUrlExpired. run. reflexivity. Qed.

(** C4: [isUrlExpired record] is the comparison [now > record.expiresAt]:
    it holds exactly when the clock reads a time strictly greater than
    [record.expiresAt]; a record that satisfies the
    expiry invariant with [validityMinutes = 1] is not expired at
    [createdAt + 59999] and expired at [createdAt + 60001]. *)
Theorem isUrlExpired_spec (record : ShortenedUrl) :
  (forall w : World,
     (useUrlStorage.isUrlExpired record w).1 =
     num_gt (of_Z (Date_now (ticks w))) (expiresAt record))
  /\
  (forall (w : World) (e : Q),
     expiresAt record = Fin e ->
     ((useUrlStorage.isUrlExpired record w).1 = true <->
      (e < inject_Z (Date_now (ticks w)))%Q))
  /\
  (forall c : Z,
     createdAt record = of_Z c ->
     validityMinutes record = of_Z 1 ->
     expiry_invariant record ->
     forall w : World,
       (Date_now (ticks w) = (c + 59999)%Z ->
        (useUrlStorage.isUrlExpired record w).1 = false)
       /\
       (Date_now (ticks w) = (c + 60001)%Z ->
        (useUrlStorage.isUrlExpired record w).1 = true)).
Proof.
  assert (Hiff : forall (w : World) (e : Q),
            expiresAt record = Fin e ->
            ((useUrlStorage.isUrlExpired record w).1 = true <->
             (e < inject_Z (Date_now (ticks w)))%Q)).
  { intros w e He. rewrite isUrlExpired_result, He.
    unfold num_gt, num_lt, of_Z, Qltb.
    rewrite negb_true_iff, <- not_true_iff_false, Qle_bool_iff.
    split; [apply Qnot_le_lt | apply Qlt_not_le]. }
  split; [apply isUrlExpired_result |]. split; [exact Hiff |].
  intros c Hcreated Hvalidity Hinv w.
  unfold expiry_invariant in Hinv.
  rewrite Hcreated, Hvalidity in Hinv.
  destruct (expiresAt record) as [e | | |] eqn:He; try contradiction.
  cbn in Hinv.
  split; intros Hnow.
  - apply not_true_iff_false. rewrite (Hiff w e eq_refl), Hnow.
    rewrite inject_Z_plus. unfold inject_Z in *. lra.
  - rewrite (Hiff w e eq_refl), Hnow.
    rewrite inject_Z_plus. unfold inject_Z in *. lra.
Qed.

Lemma createUrl_record (form : UrlFormData) (w : World) :
  exists (id code : jsstring) (now : Z),
    (UrlShortenerForm.createUrl form w).1 =
      mkShortenedUrl id (f_originalUrl form) code (of_Z now)
        (num_add (of_Z now)
           (num_mul (num_mul (f_validityMinutes form) (of_Z 60))
              (of_Z 1000)))
        (f_validityMinutes form) [] true
    /\ (truthy (trim (customShortCode form)) = true ->
        code = trim (customShortCode form))
    /\ (truthy (trim (customShortCode form)) = false ->
        code = (urlUtils.generateRandomShortCode w).1).
Proof.
  unfold UrlShortenerForm.createUrl. run.
  eexists _, _, _. split; [reflexivity |].
  destruct (truthy (trim (customShortCode form))); split; intros; done.
Qed.

Lemma createUrl_spec (form : UrlFormData) (w : World) :
  created_from form (UrlShortenerForm.createUrl form w).1.
Proof.
  destruct (createUrl_record form w) as (id & code & now & -> & _ & Hgen).
  unfold created_from, expiry_invariant.
  cbn [expiresAt createdAt validityMinutes clicks isActive shortCode].
  split; [apply minutes_to_ms |].
  do 3 (split; [reflexivity |]).
  split.
  - intros ->. unfold of_Z, inject_Z. simpl. ring.
  - intros Hempty. rewrite Hempty in Hgen.
    rewrite (Hgen eq_refl).
    destruct (generated_code_shape w) as (Hlen & Hall).
    eauto.
Qed.

Lemma createAll_spec shortenedUrls (pending : list UrlFormData)
    (createdUrls : list ShortenedUrl) (w : World) :
  exists new : list ShortenedUrl,
    (UrlShortenerForm.createAll shortenedUrls pending createdUrls w).1 =
      createdUrls ++ new
    /\ Forall2 created_from pending new.
Proof.
  revert createdUrls w.
  induction pending as [| form rest IH]; intros createdUrls w.
  - exists []. cbn. by rewrite app_nil_r.
  - cbn [UrlShortenerForm.createAll]. step. cbv beta. step. cbv beta.
    match goal with |- context [UrlShortenerForm.createAll _ rest ?acc ?w0] =>
      destruct (IH acc w0) as (new & -> & Hnew) end.
    exists ((UrlShortenerForm.createUrl form w).1 :: new).
    rewrite <- app_assoc. split; [reflexivity |].
    constructor; [apply createUrl_spec | exact Hnew].
Qed.

Lemma submit_created (shortenedUrls : list ShortenedUrl)
    (forms : list UrlFormData) (errors : AllErrors) (w : World) :
  exists new : list ShortenedUrl,
    (UrlShortenerForm.submit shortenedUrls forms errors w).1 = new
    /\ (if (UrlShortenerForm.collect_errors shortenedUrls forms).2
        then new = []
        else Forall2 created_from forms new).
Proof.
  unfold UrlShortenerForm.submit. step. cbv beta. step. cbv beta.
  rewrite !validateAllForms_result. cbn [fst snd].
  destruct (UrlShortenerForm.collect_errors shortenedUrls forms).2;
    cbn [negb].
  - run. by exists [].
  - run.
    match goal with |- context [UrlShortenerForm.createAll _ _ [] ?w0] =>
      destruct (createAll_spec shortenedUrls forms [] w0)
        as (new & -> & Hnew) end.
    by exists new.
Qed.

(** C5: every record created by a submission satisfies the expiry
    invariant, has no clicks and is active; it is made from the request
    at the same position, takes its validity from it (30 minutes give
    [expiresAt = createdAt + 1800000]) and, when that request has an
    empty custom short code, its short code is a freshly generated code
    of 6 alphanumeric characters.  A submission that passes the validation
    creates one record for each request. *)
Theorem created_records_spec (shortenedUrls : list ShortenedUrl)
    (forms : list UrlFormData) (errors : AllErrors) (w : World) :
  let createdUrls :=
    (UrlShortenerForm.submit shortenedUrls forms errors w).1 in
  Forall (fun record =>
            expiry_invariant record
            /\ clicks record = [] /\ isActive record = true) createdUrls
  /\
  (forall (i : nat) (record : ShortenedUrl),
     createdUrls !! i = Some record ->
     exists form : UrlFormData,
       forms !! i = Some form /\ created_from form record)
  /\
  ((UrlShortenerForm.validateAllForms shortenedUrls forms w).1 = true ->
   length createdUrls = length forms).
Proof.
  intros createdUrls.
  destruct (submit_created shortenedUrls forms errors w)
    as (new & Hcreated & Hnew).
  fold createdUrls in Hcreated.
  assert (Hpos : forall (i : nat) (record : ShortenedUrl),
            createdUrls !! i = Some record ->
            exists form : UrlFormData,
              forms !! i = Some form /\ created_from form record).
  { rewrite Hcreated. intros i record Hi.
    destruct (UrlShortenerForm.collect_errors shortenedUrls forms).2.
    - rewrite Hnew in Hi. by rewrite lookup_nil in Hi.
    - destruct (Forall2_lookup_r _ _ _ _ _ Hnew Hi) as (form & Hform & Hok).
      eauto. }
  split; [| split; [exact Hpos |]].
  - apply Forall_lookup. intros i record Hi.
    destruct (Hpos i record Hi) as (form & _ & Hinv & Hclicks & Hactive & _).
    auto.
  - rewrite validateAllForms_result, Hcreated. cbn [fst].
    destruct (UrlShortenerForm.collect_errors shortenedUrls forms).2;
      [discriminate |].
    intros _. symmetry. by eapply Forall2_length.
Qed.
End expiry.

(** A record created for one minute at the first reading of the sample
    clock, queried 59999 ms and 60001 ms later. *)
Lemma isUrlExpired_spec_witness :
  let record :=
    (@UrlShortenerForm.createUrl sample_browser
       (mkUrlFormData (lit "https://example.com") (lit "abc123") (of_Z 1))
       initial_world).1 in
  (@useUrlStorage.isUrlExpired sample_browser record
     (set_ticks 1 initial_world)).1 = false
  /\
  (@useUrlStorage.isUrlExpired sample_browser record
     (set_ticks 2 initial_world)).1 = true.
Proof.
  intros record.
  assert (Hinv : expiry_invariant record)
    by apply (@createUrl_spec sample_browser).
  assert (Hcreated : createdAt record = of_Z 1700000000000)
    by (vm_compute; reflexivity).
  assert (Hvalidity : validityMinutes record = of_Z 1)
    by (vm_compute; reflexivity).
  pose proof (proj2 (proj2 (@isUrlExpired_spec sample_browser record))
                _ Hcreated Hvalidity Hinv) as Hboundary.
  split.
  - apply (Hboundary (set_ticks 1 initial_world)). vm_compute. reflexivity.
  - apply (Hboundary (set_ticks 2 initial_world)). vm_compute. reflexivity.
Defined.

(** The scenario of one request without custom code, valid for 30 minutes,
    in the sample browser. *)
Lemma created_records_spec_witness :
  exists record : ShortenedUrl,
    (@UrlShortenerForm.submit sample_browser [] 
       [mkUrlFormData (lit "https://example.com") [] (of_Z 30)] ∅
       initial_world).1 = [record]
    /\ length (shortCode record) = 6%nat
    /\ same_number (expiresAt record)
         (num_add (createdAt record) (of_Z 1800000))
    /\ clicks record = [] /\ isActive record = true.
Proof.
  set (form := mkUrlFormData (lit "https://example.com") [] (of_Z 30)).
  destruct (@UrlShortenerForm.submit sample_browser [] [form] ∅
              initial_world).1 as [| record rest] eqn:Hcreated;
    [by vm_compute in Hcreated |].
  destruct rest; [| by vm_compute in Hcreated].
  exists record. split; [reflexivity |].
  destruct (proj1 (proj2 (@created_records_spec sample_browser [] [form] ∅
                            initial_world)) 0%nat record)
    as (form' & Hform & Hrec).
  { by rewrite Hcreated. }
  injection Hform as <-.
  destruct Hrec as (_ & Hclicks & Hactive & _ & Hthirty & Hcode).
  split; [apply (Hcode eq_refl) |].
  split; [apply (Hthirty eq_refl) |].
  exact (conj Hclicks Hactive).
Defined.

(** ** The submission validator *)

Section validator.
Context `{Browser}.
Variable shortenedUrls : list ShortenedUrl.
Variable forms : list UrlFormData.
Variable errors : AllErrors.

Local Abbreviation validateForm := (UrlShortenerForm.validateForm shortenedUrls).
Local Abbreviation check_form := (UrlShortenerForm.check_form shortenedUrls).
Local Abbreviation collect_errors :=
  (UrlShortenerForm.collect_errors shortenedUrls forms).
Local Abbreviation submit :=
  (UrlShortenerForm.submit shortenedUrls forms errors).

Lemma range_test (v : number) :
  num_lt v (of_Z 1) || num_gt v (of_Z 43200) = true <-> out_of_range v.
Proof.
  destruct v as [q | | |]; cbn; try (split; [done | auto]).
  unfold Qltb. rewrite orb_true_iff, !negb_true_iff.
  rewrite <- !not_true_iff_false, !Qle_bool_iff.
  unfold inject_Z.
  split; (intros [Hlo | Hhi]; [left | right]); lra.
Qed.

Lemma validateForm_validity (index : nat) (form : UrlFormData) :
  (out_of_range (f_validityMinutes form) ->
   validateForm index form !! "validityMinutes" = Some validity_message)
  /\
  (~ out_of_range (f_validityMinutes form) ->
   validateForm index form !! "validityMinutes" = None).
Proof.
  unfold UrlShortenerForm.validateForm.
  rewrite <- range_test.
  destruct (num_lt _ _ || num_gt _ _).
  - split; [intros _ | done]. by rewrite lookup_insert_eq.
  - split; [done | intros _].
    repeat match goal with
           | |- context [if ?b then _ else _] => destruct b
           end;
      by rewrite ?lookup_insert_ne, ?lookup_empty.
Qed.

Lemma check_form_keeps (acc : AllErrors * bool) (item : nat * UrlFormData) :
  acc.2 = true -> (check_form acc item).2 = true.
Proof.
  unfold UrlShortenerForm.check_form. by destruct (0 <? size _)%nat.
Qed.

Lemma checked_keeps (items : list (nat * UrlFormData))
    (acc : AllErrors * bool) :
  acc.2 = true -> (foldl check_form acc items).2 = true.
Proof.
  revert acc. induction items as [| item items IH]; intros acc Hacc;
    [done |].
  cbn [foldl]. by apply IH, check_form_keeps.
Qed.

Lemma checked_flags (items : list (nat * UrlFormData))
    (acc : AllErrors * bool) (item : nat * UrlFormData) :
  item ∈ items ->
  validateForm item.1 item.2 <> ∅ ->
  (foldl check_form acc items).2 = true.
Proof.
  revert acc. induction items as [| first items IH]; intros acc Hin Hne.
  - by apply elem_of_nil in Hin.
  - cbn [foldl]. apply elem_of_cons in Hin as [<- | Hin]; [| by apply IH].
    apply checked_keeps. unfold UrlShortenerForm.check_form.
    destruct (Nat.ltb_spec 0 (size (validateForm item.1 item.2)))
      as [Hpos | Hzero]; [done |].
    exfalso. apply Hne, map_size_empty_iff. lia.
Qed.

Lemma flagged_keeps (found : list CodeAt) (acc : AllErrors * bool) :
  acc.2 = true \/ found <> [] ->
  (foldl UrlShortenerForm.flag_duplicate acc found).2 = true.
Proof.
  revert acc. induction found as [| d found IH]; intros acc Hacc.
  - by destruct Hacc.
  - cbn [foldl]. apply IH. by left.
Qed.

(** A request with a field error makes the validation fail. *)
Lemma field_error_fails (i : nat) (form : UrlFormData) :
  forms !! i = Some form ->
  validateForm i form <> ∅ ->
  collect_errors.2 = true.
Proof.
  intros Hform Hne. unfold UrlShortenerForm.collect_errors.
  apply flagged_keeps. left.
  apply (checked_flags _ _ (i, form)); [| done].
  apply elem_of_lookup_imap. eauto.
Qed.

(** A failed validation commits nothing: no record is created, and the
    records in memory and in the storage stay as they were. *)
Lemma rejected_commits_nothing (w : World) :
  collect_errors.2 = true ->
  (submit w).1 = []
  /\ shortenedUrls_cell (submit w).2 = shortenedUrls_cell w
  /\ localStorage (submit w).2 !! "shortened-urls" =
     localStorage w !! "shortened-urls"
  /\ errors_cell (submit w).2 = collect_errors.1.
Proof.
  intros Hfail. unfold UrlShortenerForm.submit.
  step. cbv beta. step. cbv beta. step. cbv beta. step. cbv beta.
  rewrite !validateAllForms_result. cbn [fst snd]. rewrite Hfail.
  cbn [negb]. run.
  match goal with |- context [Logger.warn ?m ?d ?s ?w0] =>
    pose proof (addLog_log_only warn_level m d s w0) as Hlog;
    fold (Logger.warn m d s w0) in Hlog end.
  destruct Hlog as [Hstore Hurls _ Herrors _ _ _ _].
  unfold UrlShortenerForm.setSuccessMessage, modify in *.
  cbn [snd] in *.
  rewrite Hurls, Herrors, Hstore by done.
  done.
Qed.
End validator.

(** What the validity input can hand over. *)

Lemma integer_to_number_shape (z : Z) :
  integer_to_number z = of_Z z
  \/ integer_to_number z = Infinity \/ integer_to_number z = NegInfinity.
Proof.
  unfold integer_to_number.
  destruct (_ <=? z)%Z; [by right; left |].
  destruct (z <=? _)%Z; [by right; right | by left].
Qed.

Lemma parseInt_shape (s : jsstring) :
  parseInt s = NaN
  \/ (exists z : Z, parseInt s = of_Z z)
  \/ parseInt s = Infinity \/ parseInt s = NegInfinity.
Proof.
  unfold parseInt.
  destruct (leading_digits _ _ None) as [mathInt |]; [| by left].
  right. destruct (integer_to_number_shape
                     ((match trimStart s with
                       | 45%N :: rest => ((-1)%Z, rest)
                       | 43%N :: rest => (1%Z, rest)
                       | _ => (1%Z, trimStart s)
                       end).1 * mathInt)) as [-> | [-> | ->]]; eauto.
Qed.

Lemma truthy_num_integer (z : Z) : truthy_num (of_Z z) = true <-> z <> 0%Z.
Proof.
  unfold truthy_num, of_Z.
  rewrite negb_true_iff, <- not_true_iff_false, Qeq_bool_iff.
  change 0%Q with (inject_Z 0). by rewrite inject_Z_injective.
Qed.

Lemma validity_input_shape (value : jsstring) :
  (exists z : Z,
     z <> 0%Z /\ UrlShortenerForm.validity_input value = of_Z z)
  \/ UrlShortenerForm.validity_input value = Infinity
  \/ UrlShortenerForm.validity_input value = NegInfinity.
Proof.
  unfold UrlShortenerForm.validity_input.
  destruct (parseInt_shape value) as [-> | [[z ->] | [-> | ->]]]; cbn [truthy_num].
  - left. by exists 30%Z.
  - destruct (truthy_num (of_Z z)) eqn:Hz.
    + left. exists z. split; [by apply truthy_num_integer | done].
    + left. by exists 30%Z.
  - by right; left.
  - by right; right.
Qed.

(** Among integers, the range test of the validation is exact. *)
Lemma out_of_range_integer (z : Z) :
  out_of_range (of_Z z) <-> ~ (1 <= z <= 43200)%Z.
Proof.
  unfold out_of_range, of_Z.
  change 1%Q with (inject_Z 1). change 43200%Q with (inject_Z 43200).
  rewrite <- !Zlt_Qlt. lia.
Qed.

(** A validity the form can carry is either out of range, or an integer
    of [1, 43200]. *)
Lemma form_validity_range (v : number) :
  form_validity v ->
  (out_of_range v /\ ~ integer_in_range v)
  \/ (~ out_of_range v /\ integer_in_range v).
Proof.
  intros Hform.
  assert (Hshape : (exists z : Z, v = of_Z z) \/ v = Infinity
                   \/ v = NegInfinity).
  { destruct Hform as [-> | [value ->]]; [left; by exists 30%Z |].
    destruct (validity_input_shape value) as [(z & _ & ->) | [-> | ->]];
      eauto. }
  destruct Hshape as [[z ->] | [-> | ->]].
  - rewrite out_of_range_integer.
    destruct (decide (1 <= z <= 43200)%Z) as [Hin | Hout].
    + right. split; [tauto |]. exists z. split; [| done]. cbn. reflexivity.
    + left. split; [done |]. intros (z' & Hsame & Hrange). cbn in Hsame.
      apply inject_Z_injective in Hsame as ->. done.
  - left. split; [exact I |]. by intros (z & Hsame & _).
  - left. split; [exact I |]. by intros (z & Hsame & _).
Qed.

Section validator_claims.
Context `{Browser}.
Variable shortenedUrls : list ShortenedUrl.
Variable forms : list UrlFormData.
Variable errors : AllErrors.

Local Abbreviation validateForm :=
  (UrlShortenerForm.validateForm shortenedUrls).
Local Abbreviation collect_errors :=
  (UrlShortenerForm.collect_errors shortenedUrls forms).
Local Abbreviation shortCodes := (UrlShortenerForm.shortCodes forms).
Local Abbreviation duplicates := (UrlShortenerForm.duplicates forms).
Local Abbreviation handleSubmit :=
  (UrlShortenerForm.handleSubmit shortenedUrls forms errors).
Local Abbreviation submit :=
  (UrlShortenerForm.submit shortenedUrls forms errors).

Lemma handleSubmit_world (w : World) : (handleSubmit w).2 = (submit w).2.
Proof. unfold UrlShortenerForm.handleSubmit. by run. Qed.

(** C3: for every request the form can hold, the per-request validation
    puts the validity error on [validityMinutes] exactly when the value is
    not an integer of [1, 43200], and raises no validity error exactly when
    it is one; a rejected value keeps the whole batch from being
    committed.  The validities the form can hold are the 30 of a blank
    form and what the validity input hands over. *)
Theorem validity_range_spec (i : nat) (form : UrlFormData) :
  form_validity (f_validityMinutes form) ->
  let field := validateForm i form !! "validityMinutes" in
  (integer_in_range (f_validityMinutes form) <-> field = None)
  /\ (~ integer_in_range (f_validityMinutes form) <->
      field = Some validity_message)
  /\ (~ integer_in_range (f_validityMinutes form) ->
      forms !! i = Some form ->
      forall w : World,
        (submit w).1 = []
        /\ shortenedUrls_cell (handleSubmit w).2 = shortenedUrls_cell w
        /\ localStorage (handleSubmit w).2 !! "shortened-urls" =
           localStorage w !! "shortened-urls").
Proof.
  intros Hform field.
  destruct (validateForm_validity shortenedUrls i form) as [Hout Hin].
  fold field in Hout, Hin.
  destruct (form_validity_range _ Hform) as [[Hbad Hnot] | [Hgood Hint]].
  - specialize (Hout Hbad). split; [| split].
    + split; [done | intros Hnone; congruence].
    + split; done.
    + intros _ Hitem w.
      destruct (rejected_commits_nothing shortenedUrls forms errors w)
        as (Hnone & Hcell & Hstore & _).
      { apply (field_error_fails _ _ i form Hitem).
        intros Hempty. unfold field in Hout. by rewrite Hempty in Hout. }
      by rewrite handleSubmit_world.
  - specialize (Hin Hgood). split; [| split].
    + split; done.
    + split; [done | intros Hsome; congruence].
    + done.
Qed.
End validator_claims.

(** Typing [-5] in the validity input gives a request that is rejected. *)
Lemma validity_range_spec_witness :
  @UrlShortenerForm.validateForm sample_browser [] 0
    (mkUrlFormData (lit "https://example.com") []
       (UrlShortenerForm.validity_input (lit "-5")))
    !! "validityMinutes" = Some validity_message.
Proof.
  apply (proj1 (proj2 (@validity_range_spec sample_browser [] [] ∅ 0%nat
                         (mkUrlFormData (lit "https://example.com") []
                            (UrlShortenerForm.validity_input (lit "-5")))
                         (or_intror (ex_intro _ (lit "-5") eq_refl))))).
  intros (z & Hsame & Hrange). vm_compute in Hsame.
  destruct z; try discriminate. lia.
Defined.

(** ** Duplicate short codes in one batch *)

Lemma findIndex_from_bounds {A} (p : A -> bool) (l : list A) (i : Z)
    (q : nat) (y : A) :
  l !! q = Some y -> p y = true ->
  (i <= findIndex_from p l i <= i + Z.of_nat q)%Z.
Proof.
  revert i q. induction l as [| x l IH]; intros i q Hq Hy; [done |].
  cbn [findIndex_from]. destruct (p x) eqn:Hx; [lia |].
  destruct q as [| q]; [cbn in Hq; congruence |].
  cbn in Hq. specialize (IH (i + 1)%Z q Hq Hy). lia.
Qed.

Lemma filter_from_elem {A} (p : A -> nat -> bool) (l : list A) (i k : nat)
    (x : A) :
  l !! k = Some x -> p x (i + k)%nat = true -> x ∈ filter_from p l i.
Proof.
  revert i k. induction l as [| z l IH]; intros i k Hk Hp; [done |].
  cbn [filter_from]. destruct k as [| k].
  - cbn in Hk. injection Hk as ->. rewrite Nat.add_0_r in Hp.
    rewrite Hp. apply list_elem_of_here.
  - cbn in Hk. assert (Hin : x ∈ filter_from p l (S i)).
    { apply (IH (S i) k Hk). by replace (S i + k)%nat with (i + S k)%nat by lia. }
    destruct (p z i); [by apply list_elem_of_further | done].
Qed.

Lemma filter_lookup {A} (P : A -> bool) (l : list A) (b : nat) (y : A) :
  l !! b = Some y -> P y = true -> exists b', List.filter P l !! b' = Some y.
Proof.
  intros Hb Hy. apply list_elem_of_lookup_1, list_elem_of_In, filter_In.
  split; [| done]. apply list_elem_of_In, list_elem_of_lookup. eauto.
Qed.

(** Filtering keeps the order of the elements it keeps. *)
Lemma filter_lookup_order {A} (P : A -> bool) (l : list A) (a b : nat)
    (x y : A) :
  (a < b)%nat -> l !! a = Some x -> l !! b = Some y ->
  P x = true -> P y = true ->
  exists a' b' : nat,
    (a' < b')%nat
    /\ List.filter P l !! a' = Some x /\ List.filter P l !! b' = Some y.
Proof.
  revert a b. induction l as [| z l IH]; intros a b Hab Ha Hb Hx Hy; [done |].
  destruct b as [| b]; [lia |]. cbn in Hb.
  destruct a as [| a].
  - cbn in Ha. injection Ha as ->.
    destruct (filter_lookup P l b y Hb Hy) as [b' Hb'].
    exists 0%nat, (S b'). cbn [List.filter]. rewrite Hx.
    split; [lia | done].
  - cbn in Ha.
    destruct (IH a b ltac:(lia) Ha Hb Hx Hy) as (a' & b' & Hlt & Ha' & Hb').
    cbn [List.filter]. destruct (P z).
    + exists (S a'), (S b'). split; [lia | done].
    + exists a', b'. done.
Qed.

Lemma filter_from_elem_inv {A} (p : A -> nat -> bool) (l : list A) (i : nat)
    (x : A) :
  x ∈ filter_from p l i ->
  exists k : nat, l !! k = Some x /\ p x (i + k)%nat = true.
Proof.
  revert i. induction l as [| z l IH]; intros i Hin.
  - by apply elem_of_nil in Hin.
  - cbn [filter_from] in Hin.
    assert (Hrest : x ∈ filter_from p l (S i) ->
                    exists k : nat,
                      (z :: l) !! k = Some x /\ p x (i + k)%nat = true).
    { intros Hx. destruct (IH (S i) Hx) as (k & Hk & Hp).
      exists (S k). split; [done |].
      by replace (i + S k)%nat with (S i + k)%nat by lia. }
    destruct (p z i) eqn:Hz; [| by apply Hrest].
    apply elem_of_cons in Hin as [-> | Hin]; [| by apply Hrest].
    exists 0%nat. split; [done |]. by rewrite Nat.add_0_r.
Qed.

(** When [findIndex] does not answer the position of a matching element,
    an earlier element matches. *)
Lemma findIndex_from_earlier {A} (p : A -> bool) (l : list A) (i : Z)
    (k : nat) (x : A) :
  l !! k = Some x -> p x = true ->
  findIndex_from p l i <> (i + Z.of_nat k)%Z ->
  exists (q : nat) (y : A), (q < k)%nat /\ l !! q = Some y /\ p y = true.
Proof.
  revert i k. induction l as [| z l IH]; intros i k Hk Hx Hne; [done |].
  cbn [findIndex_from] in Hne. destruct (p z) eqn:Hz.
  - destruct k as [| k]; [lia |]. exists 0%nat, z. split; [lia | done].
  - destruct k as [| k]; [cbn in Hk; congruence |].
    cbn in Hk.
    destruct (IH (i + 1)%Z k Hk Hx) as (q & y & Hq & Hy & Hpy); [lia |].
    exists (S q), y. split; [lia | done].
Qed.

Lemma filter_lookup_inv {A} (P : A -> bool) (l : list A) (b : nat) (y : A) :
  List.filter P l !! b = Some y ->
  P y = true /\ exists b0 : nat, l !! b0 = Some y.
Proof.
  intros Hb.
  assert (Hin : In y (List.filter P l)).
  { apply list_elem_of_In, list_elem_of_lookup. eauto. }
  apply filter_In in Hin as [Hin Hy]. split; [done |].
  by apply list_elem_of_lookup_1, list_elem_of_In.
Qed.

(** What filtering keeps was in the same order before. *)
Lemma filter_lookup_order_inv {A} (P : A -> bool) (l : list A) (a' b' : nat)
    (x y : A) :
  (a' < b')%nat ->
  List.filter P l !! a' = Some x -> List.filter P l !! b' = Some y ->
  exists a b : nat, (a < b)%nat /\ l !! a = Some x /\ l !! b = Some y.
Proof.
  revert a' b'. induction l as [| z l IH]; intros a' b' Hlt Ha Hb; [done |].
  cbn [List.filter] in Ha, Hb. destruct (P z).
  - destruct b' as [| b']; [lia |]. cbn in Hb.
    destruct a' as [| a'].
    + cbn in Ha. injection Ha as ->.
      destruct (filter_lookup_inv P l b' y Hb) as (_ & b & Hy).
      exists 0%nat, (S b). split; [lia | done].
    + cbn in Ha.
      destruct (IH a' b' ltac:(lia) Ha Hb) as (a & b & Hab & Hx & Hy).
      exists (S a), (S b). split; [lia | done].
  - destruct (IH a' b' Hlt Ha Hb) as (a & b & Hab & Hx & Hy).
    exists (S a), (S b). split; [lia | done].
Qed.

Section duplicates.
Context `{Browser}.
Variable shortenedUrls : list ShortenedUrl.
Variable forms : list UrlFormData.
Variable errors : AllErrors.

Local Abbreviation collect_errors :=
  (UrlShortenerForm.collect_errors shortenedUrls forms).
Local Abbreviation shortCodes := (UrlShortenerForm.shortCodes forms).
Local Abbreviation duplicates := (UrlShortenerForm.duplicates forms).
Local Abbreviation handleSubmit :=
  (UrlShortenerForm.handleSubmit shortenedUrls forms errors).
Local Abbreviation submit :=
  (UrlShortenerForm.submit shortenedUrls forms errors).

Lemma flag_duplicate_here (acc : AllErrors * bool) (d : CodeAt) :
  flagged_duplicate (UrlShortenerForm.flag_duplicate acc d).1 (index d).
Proof.
  unfold flagged_duplicate, UrlShortenerForm.flag_duplicate. cbn [fst].
  eexists. rewrite lookup_insert_eq. split; [reflexivity |].
  by rewrite lookup_insert_eq.
Qed.

Lemma flag_duplicate_other (acc : AllErrors * bool) (d : CodeAt) (j : nat) :
  index d <> j ->
  (UrlShortenerForm.flag_duplicate acc d).1 !! j = acc.1 !! j.
Proof.
  intros Hne. unfold UrlShortenerForm.flag_duplicate. cbn [fst].
  rewrite lookup_insert_ne by done.
  destruct (acc.1 !! index d); [done |]. by rewrite lookup_insert_ne.
Qed.

Lemma flagged_field (found : list CodeAt) (acc : AllErrors * bool)
    (j : nat) :
  (exists d, d ∈ found /\ index d = j) \/ flagged_duplicate acc.1 j ->
  flagged_duplicate (foldl UrlShortenerForm.flag_duplicate acc found).1 j.
Proof.
  revert acc. induction found as [| d found IH]; intros acc Hj.
  - destruct Hj as [(d & Hd & _) | Hj]; [by apply elem_of_nil in Hd | done].
  - cbn [foldl]. apply IH.
    destruct (decide (index d = j)) as [<- | Hne].
    { right. apply flag_duplicate_here. }
    destruct Hj as [(d' & Hd' & Hindex) | Hj].
    + left. exists d'. split; [| done].
      apply elem_of_cons in Hd' as [-> | Hd']; [congruence | done].
    + right. unfold flagged_duplicate.
      by rewrite flag_duplicate_other.
Qed.

(** A request whose trimmed code occurs earlier in the batch is among the
    duplicates. *)
Lemma later_occurrence_found (i j : nat) (first second : UrlFormData) :
  (i < j)%nat ->
  forms !! i = Some first -> forms !! j = Some second ->
  trim (customShortCode first) = trim (customShortCode second) ->
  trim (customShortCode second) <> [] ->
  mkCodeAt (trim (customShortCode second)) j ∈ duplicates.
Proof.
  intros Hij Hi Hj Hsame Hne.
  set (c := trim (customShortCode second)) in *.
  assert (Htruthy : truthy c = true) by (by destruct c).
  destruct (filter_lookup_order (fun item => truthy (code item))
              (imap (fun index form =>
                       mkCodeAt (trim (customShortCode form)) index) forms)
              i j (mkCodeAt c i) (mkCodeAt c j) Hij)
    as (a & b & Hab & Ha & Hb); try done.
  { by rewrite list_lookup_imap, Hi, <- Hsame. }
  { by rewrite list_lookup_imap, Hj. }
  unfold UrlShortenerForm.duplicates, filter_index.
  apply (filter_from_elem _ _ 0 b); [exact Hb |].
  cbn [code Nat.add]. apply negb_true_iff, Z.eqb_neq.
  pose proof (findIndex_from_bounds
                (fun other => str_eq (code other) c) shortCodes 0 a
                (mkCodeAt c i) Ha) as Hbound.
  unfold findIndex.
  assert (Heq : str_eq (code (mkCodeAt c i)) c = true)
    by (by apply bool_decide_eq_true).
  specialize (Hbound Heq). lia.
Qed.

(** Every duplicate is a request whose trimmed code, not empty, occurs
    earlier in the batch. *)
Lemma duplicate_has_earlier (d : CodeAt) :
  d ∈ duplicates -> repeats_earlier_code forms (index d).
Proof.
  intros Hd. unfold UrlShortenerForm.duplicates, filter_index in Hd.
  apply filter_from_elem_inv in Hd as (k & Hk & Hp).
  cbn [Nat.add] in Hp. apply negb_true_iff, Z.eqb_neq in Hp.
  destruct (findIndex_from_earlier
              (fun other => str_eq (code other) (code d)) shortCodes 0 k d Hk)
    as (q & y & Hq & Hy & Hcode); [by apply bool_decide_eq_true | done |].
  apply bool_decide_eq_true in Hcode.
  destruct (filter_lookup_inv _ _ _ _ Hk) as (Htruthy & _).
  destruct (filter_lookup_order_inv _ _ q k y d Hq Hy Hk)
    as (a & b & Hab & Ha & Hb).
  rewrite list_lookup_imap in Ha, Hb.
  destruct (forms !! a) as [first |] eqn:Hfirst; [| done].
  destruct (forms !! b) as [second |] eqn:Hsecond; [| done].
  cbn in Ha, Hb. injection Ha as <-. injection Hb as <-.
  cbn [code index] in *.
  exists a, first, second. repeat split; try done.
  intros Hempty. by rewrite Hempty in Htruthy.
Qed.

Lemma flagged_frame (found : list CodeAt) (acc : AllErrors * bool)
    (j : nat) :
  (forall d, d ∈ found -> index d <> j) ->
  (foldl UrlShortenerForm.flag_duplicate acc found).1 !! j = acc.1 !! j.
Proof.
  revert acc. induction found as [| d found IH]; intros acc Hother; [done |].
  cbn [foldl]. rewrite IH.
  - apply flag_duplicate_other, Hother, list_elem_of_here.
  - intros d' Hd'. by apply Hother, list_elem_of_further.
Qed.

(** The first pass stores nothing but results of [validateForm]. *)
Lemma checked_lookup (items : list (nat * UrlFormData))
    (acc : AllErrors * bool) (j : nat) (formErrors : FormErrors) :
  (foldl (UrlShortenerForm.check_form shortenedUrls) acc items).1 !! j =
    Some formErrors ->
  acc.1 !! j = Some formErrors
  \/ exists form : UrlFormData,
       formErrors = UrlShortenerForm.validateForm shortenedUrls j form.
Proof.
  revert acc. induction items as [| item items IH]; intros acc Hj;
    [by left |].
  cbn [foldl] in Hj. apply IH in Hj as [Hj | Hj]; [| by right].
  unfold UrlShortenerForm.check_form in Hj.
  destruct (0 <? size _)%nat; [| by left]. cbn [fst] in Hj.
  destruct (decide (item.1 = j)) as [<- | Hne].
  - rewrite lookup_insert_eq in Hj. injection Hj as <-. right. eauto.
  - rewrite lookup_insert_ne in Hj by done. by left.
Qed.

Lemma validateForm_no_duplicate_message (j : nat) (form : UrlFormData) :
  UrlShortenerForm.validateForm shortenedUrls j form !! "customShortCode"
  <> Some UrlShortenerForm.duplicate_message.
Proof.
  unfold UrlShortenerForm.validateForm.
  repeat match goal with
         | |- context [if ?b then _ else _] => destruct b
         end;
    rewrite ?lookup_insert_eq, ?lookup_insert_ne, ?lookup_empty by done;
    try done;
    intros Hmsg; apply (f_equal (fmap length)) in Hmsg;
    vm_compute in Hmsg; discriminate.
Qed.

Lemma flagged_iff_repeats (j : nat) :
  flagged_duplicate collect_errors.1 j <-> repeats_earlier_code forms j.
Proof.
  split.
  - intros (formErrors & Hj & Hmsg).
    destruct (decide (Exists (fun d => index d = j) duplicates))
      as [Hex | Hnone].
    + apply Exists_exists in Hex as (d & Hd & <-).
      by apply duplicate_has_earlier.
    + exfalso. unfold UrlShortenerForm.collect_errors in Hj.
      rewrite flagged_frame in Hj.
      * apply checked_lookup in Hj as [Hj | (form & ->)]; [done |].
        by apply validateForm_no_duplicate_message in Hmsg.
      * intros d Hd Hindex. apply Hnone, Exists_exists. eauto.
  - intros (i & first & second & Hij & Hi & Hj & Hsame & Hne).
    unfold UrlShortenerForm.collect_errors. apply flagged_field.
    left. exists (mkCodeAt (trim (customShortCode second)) j).
    split; [| reflexivity].
    by apply (later_occurrence_found i j first second).
Qed.

(** C1, as amended: the validator puts the duplicate error on the
    [customShortCode] field of exactly those requests whose custom short
    code, once trimmed, is not empty and already occurs earlier in the
    batch (of two requests sharing a code, the later one); whenever there is
    such a request the validation fails and no record is committed. *)
Theorem duplicate_code_rejected (j : nat) (w : World) :
  (flagged_duplicate
     (errors_cell
        (UrlShortenerForm.validateAllForms shortenedUrls forms w).2) j
   <-> repeats_earlier_code forms j)
  /\
  (repeats_earlier_code forms j ->
   (UrlShortenerForm.validateAllForms shortenedUrls forms w).1 = false
   /\ flagged_duplicate (errors_cell (handleSubmit w).2) j
   /\ (submit w).1 = []
   /\ shortenedUrls_cell (handleSubmit w).2 = shortenedUrls_cell w
   /\ localStorage (handleSubmit w).2 !! "shortened-urls" =
      localStorage w !! "shortened-urls").
Proof.
  rewrite validateAllForms_result. cbn [fst snd]. fields.
  split; [apply flagged_iff_repeats |].
  intros Hrepeats.
  assert (Hflag : flagged_duplicate collect_errors.1 j)
    by (by apply flagged_iff_repeats).
  assert (Hfail : collect_errors.2 = true).
  { destruct Hrepeats as (i & first & second & Hij & Hi & Hj & Hsame & Hne).
    pose proof (later_occurrence_found i j first second Hij Hi Hj Hsame Hne)
      as Hfound.
    unfold UrlShortenerForm.collect_errors. apply flagged_keeps. right.
    intros Hnil. fold duplicates in Hnil. rewrite Hnil in Hfound.
    by apply elem_of_nil in Hfound. }
  destruct (rejected_commits_nothing shortenedUrls forms errors w Hfail)
    as (Hnone & Hcell & Hstore & Herrors).
  rewrite handleSubmit_world, Herrors, Hfail.
  by repeat split.
Qed.
End duplicates.

(** Two requests with the custom code abc123, in the sample browser. *)
Lemma duplicate_code_rejected_witness :
  let form := mkUrlFormData (lit "https://example.com") (lit "abc123")
                (of_Z 30) in
  flagged_duplicate
    (errors_cell
       (@UrlShortenerForm.handleSubmit sample_browser [] [form; form] ∅
          initial_world).2) 1
  /\ (@UrlShortenerForm.submit sample_browser [] [form; form] ∅
        initial_world).1 = [].
Proof.
  intros form.
  destruct (proj2 (@duplicate_code_rejected sample_browser [] [form; form] ∅
                     1%nat initial_world))
    as (_ & Hflag & Hnone & _).
  - exists 0%nat, form, form.
    split; [lia |]. split; [reflexivity |]. split; [reflexivity |].
    split; [reflexivity |]. vm_compute. discriminate.
  - exact (conj Hflag Hnone).
Defined.

(** The first of two requests with the custom code abc123 gets no error at
    all; and two requests sharing a custom code made of spaces only are
    accepted and records are created. *)
Lemma duplicate_code_first_not_flagged :
  let form := mkUrlFormData (lit "https://example.com") (lit "abc123")
                (of_Z 30) in
  let blank := mkUrlFormData (lit "https://example.com") (lit "  ")
                 (of_Z 30) in
  customShortCode form <> []
  /\ errors_cell
       (@UrlShortenerForm.handleSubmit sample_browser [] [form; form] ∅
          initial_world).2 !! 0%nat = None
  /\ customShortCode blank <> []
  /\ errors_cell
       (@UrlShortenerForm.handleSubmit sample_browser [] [blank; blank] ∅
          initial_world).2 = ∅
  /\ length (@UrlShortenerForm.submit sample_browser [] [blank; blank] ∅
               initial_world).1 = 2%nat.
Proof. vm_compute. repeat split; discriminate. Qed.

(** ** The record store: [addClick] *)

Section store.
Context `{Browser}.
Variable shortenedUrls : list ShortenedUrl.

Lemma saveUrls_spec (urls : list ShortenedUrl) (w : World) :
  let w' := (useUrlStorage.saveUrls urls w).2 in
  let written :=
    <["shortened-urls" := JSON_stringify_urls urls]> (localStorage w) in
  (storage_fits written = true ->
   shortenedUrls_cell w' = urls
   /\ localStorage w' !! "shortened-urls" = Some (JSON_stringify_urls urls))
  /\
  (storage_fits written = false ->
   shortenedUrls_cell w' = shortenedUrls_cell w
   /\ localStorage w' !! "shortened-urls" =
      localStorage w !! "shortened-urls").
Proof.
  intros w' written. unfold w', useUrlStorage.saveUrls. step. cbv beta.
  unfold setItem. fold written.
  destruct (storage_fits written); cbn [fst snd].
  - split; [intros _ | done]. run.
    unfold useUrlStorage.setShortenedUrls, modify. cbn [snd].
    match goal with |- context [Logger.info ?m ?d ?s ?w0] =>
      pose proof (addLog_log_only info_level m d s w0) as Hlog;
      fold (Logger.info m d s w0) in Hlog end.
    destruct Hlog as [Hstore Hurls _ _ _ _ _ _].
    rewrite Hurls, Hstore by done. fields. unfold written.
    by rewrite lookup_insert_eq.
  - split; [done | intros _].
    match goal with |- context [Logger.error ?m ?d ?s ?w0] =>
      pose proof (addLog_log_only error_level m d s w0) as Hlog;
      fold (Logger.error m d s w0) in Hlog end.
    destruct Hlog as [Hstore Hurls _ _ _ _ _ _].
    by rewrite Hurls, Hstore.
Qed.

(** C2, as amended: [addClick code click] appends the click to every
    record whose [shortCode] equals [code], active or not, and leaves the
    other fields of such a record as they were; every record with another
    [shortCode] is unchanged.  When the storage accepts the write, the
    updated collection is persisted and becomes the collection in memory;
    when it does not, neither changes. *)
Theorem addClick_spec (code : jsstring) (click : ClickData) (w : World) :
  let w' := (useUrlStorage.addClick shortenedUrls code click w).2 in
  let updatedUrls := clicked shortenedUrls code click in
  let written :=
    <["shortened-urls" := JSON_stringify_urls updatedUrls]>
      (localStorage w) in
  length updatedUrls = length shortenedUrls
  /\
  (forall (i : nat) (record : ShortenedUrl),
     shortenedUrls !! i = Some record ->
     exists record' : ShortenedUrl,
       updatedUrls !! i = Some record'
       /\ (shortCode record = code ->
           clicks record' = clicks record ++ [click]
           /\ u_id record' = u_id record
           /\ originalUrl record' = originalUrl record
           /\ shortCode record' = shortCode record
           /\ createdAt record' = createdAt record
           /\ expiresAt record' = expiresAt record
           /\ validityMinutes record' = validityMinutes record
           /\ isActive record' = isActive record)
       /\ (shortCode record <> code -> record' = record))
  /\
  (storage_fits written = true ->
   shortenedUrls_cell w' = updatedUrls
   /\ localStorage w' !! "shortened-urls" =
      Some (JSON_stringify_urls updatedUrls))
  /\
  (storage_fits written = false ->
   shortenedUrls_cell w' = shortenedUrls_cell w
   /\ localStorage w' !! "shortened-urls" =
      localStorage w !! "shortened-urls").
Proof.
  intros w' updatedUrls written.
  split; [apply length_fmap |]. split.
  - intros i record Hi. unfold updatedUrls, clicked.
    rewrite list_lookup_fmap, Hi. cbn [fmap option_fmap option_map].
    eexists. split; [reflexivity |].
    unfold str_eq. case_bool_decide as Hcode.
    + split; [intros _; by repeat split | done].
    + split; [done | reflexivity].
  - assert (Hw' : forall key : string,
              key <> "app-logs" ->
              localStorage w' !! key =
              localStorage (useUrlStorage.saveUrls updatedUrls w).2 !! key).
    { intros key Hkey. unfold w', useUrlStorage.addClick. step. cbv beta.
      fold updatedUrls.
      match goal with |- context [Logger.info ?m ?d ?s ?w0] =>
        pose proof (addLog_log_only info_level m d s w0) as Hlog;
        fold (Logger.info m d s w0) in Hlog end.
      by apply (same_storage _ _ Hlog). }
    assert (Hcell : shortenedUrls_cell w' =
                    shortenedUrls_cell
                      (useUrlStorage.saveUrls updatedUrls w).2).
    { unfold w', useUrlStorage.addClick. step. cbv beta.
      fold updatedUrls.
      match goal with |- context [Logger.info ?m ?d ?s ?w0] =>
        pose proof (addLog_log_only info_level m d s w0) as Hlog;
        fold (Logger.info m d s w0) in Hlog end.
      apply (same_shortenedUrls _ _ Hlog). }
    rewrite Hcell, Hw' by done.
    apply saveUrls_spec.
Qed.
End store.

(** A click on the code abc123 in the sample browser, whose storage accepts
    every write. *)
Lemma addClick_spec_witness :
  let record :=
    mkShortenedUrl (lit "k3x9p2q1z") (lit "https://example.com")
      (lit "abc123") (of_Z 0) (of_Z 60000) (of_Z 1) [] true in
  let click :=
    mkClickData (lit "c7d1m4w8s") (of_Z 5) (lit "Mozilla/5.0") []
      (lit "0.0.0.0") (lit "New York, US") in
  shortenedUrls_cell
    (@useUrlStorage.addClick sample_browser [record] (lit "abc123") click
       (world_holding [record])).2
  = clicked [record] (lit "abc123") click.
Proof.
  intros record click.
  destruct (@addClick_spec sample_browser [record] (lit "abc123") click
              (world_holding [record])) as (_ & _ & Hfits & _).
  apply Hfits. reflexivity.
Defined.

(** An inactive record with the code abc123 receives the click; and with a
    full storage the click on an active record is neither persisted nor
    kept in memory. *)
Lemma addClick_reaches_inactive :
  let inactive :=
    mkShortenedUrl (lit "k3x9p2q1z") (lit "https://example.com")
      (lit "abc123") (of_Z 0) (of_Z 60000) (of_Z 1) [] false in
  let active :=
    mkShortenedUrl (lit "k3x9p2q1z") (lit "https://example.com")
      (lit "abc123") (of_Z 0) (of_Z 60000) (of_Z 1) [] true in
  let click :=
    mkClickData (lit "c7d1m4w8s") (of_Z 5) (lit "Mozilla/5.0") []
      (lit "0.0.0.0") (lit "New York, US") in
  isActive inactive = false
  /\ clicks inactive = []
  /\ (exists record' : ShortenedUrl,
        shortenedUrls_cell
          (@useUrlStorage.addClick sample_browser [inactive] (lit "abc123")
             click (world_holding [inactive])).2 = [record']
        /\ clicks record' = [click])
  /\ localStorage
       (@useUrlStorage.addClick sample_browser [inactive] (lit "abc123")
          click (world_holding [inactive])).2 !! "shortened-urls"
     = Some (lit "abc123:1;")
  /\ shortenedUrls_cell
       (@useUrlStorage.addClick full_browser [active] (lit "abc123") click
          (world_holding [active])).2 = [active]
  /\ localStorage
       (@useUrlStorage.addClick full_browser [active] (lit "abc123") click
          (world_holding [active])).2 !! "shortened-urls"
     = Some (lit "abc123:0;").
Proof.
  intros inactive active click.
  split; [reflexivity |]. split; [reflexivity |]. split.
  - eexists. split; [vm_compute; reflexivity | reflexivity].
  - repeat split; vm_compute; reflexivity.
Qed.

(** ** The redirect resolver *)

Section resolver.
Context `{Browser}.
Variable routeCode : option jsstring.
Variable shortenedUrls : list ShortenedUrl.

Local Abbreviation effect := (RedirectHandler.effect routeCode shortenedUrls).

Lemma findUrlByShortCode_None (code : jsstring) :
  useUrlStorage.findUrlByShortCode shortenedUrls code = None <->
  Forall (fun url => ~ (shortCode url = code /\ isActive url = true))
    shortenedUrls.
Proof.
  unfold useUrlStorage.findUrlByShortCode.
  induction shortenedUrls as [| url urls IH]; cbn [find].
  - split; [constructor | done].
  - unfold str_eq at 1. rewrite Forall_cons.
    case_bool_decide as Hcode; destruct (isActive url) eqn:Hactive;
      cbn [andb]; rewrite ?IH; split;
      try discriminate; try (intros [Hhead _]; exfalso; by apply Hhead);
      try (intros Hrest; split; [intros [? ?]; congruence | done]);
      try (intros [_ Hrest]; done).
Qed.

Lemma failure_state (w : World) (text : jsstring) :
  text <> [] ->
  RedirectHandler.state_of (set_redirecting_cell false (set_error_cell text w))
  = if str_eq text RedirectHandler.expired_message then Expired
    else NotFound.
Proof.
  intros Hne. unfold RedirectHandler.state_of. fields.
  by destruct text.
Qed.

(** C6: when the short code is missing, or when no active record has it,
    the resolver ends in [NotFound]; when the active record found for it
    is expired, the resolver ends in [Expired]; in both cases the records
    in memory and in the storage are unchanged, so no click is added. *)
Theorem resolution_failures (w : World) :
  let w' := (effect w).2 in
  ((routeCode = None \/ routeCode = Some []
    \/ exists code : jsstring,
         routeCode = Some code
         /\ Forall (fun url =>
                      ~ (shortCode url = code
                         /\ isActive url = true)) shortenedUrls) ->
   RedirectHandler.state_of w' = NotFound
   /\ redirecting_cell w' = false
   /\ countdownInterval w' = countdownInterval w
   /\ records_unchanged w w')
  /\
  (forall (code : jsstring) (record : ShortenedUrl),
     routeCode = Some code -> code <> [] ->
     useUrlStorage.findUrlByShortCode shortenedUrls code = Some record ->
     num_gt (of_Z (Date_now (ticks w))) (expiresAt record) = true ->
     RedirectHandler.state_of w' = Expired
     /\ redirecting_cell w' = false
     /\ countdownInterval w' = countdownInterval w
     /\ records_unchanged w w').
Proof.
  intros w'.
  assert (Hmissing : forall w0 : World,
            w0 = (RedirectHandler.setRedirecting false
                    (RedirectHandler.setError
                       RedirectHandler.invalid_message w).2).2 ->
            RedirectHandler.state_of w0 = NotFound
            /\ redirecting_cell w0 = false
            /\ countdownInterval w0 = countdownInterval w
            /\ records_unchanged w w0).
  { intros w0 ->. unfold RedirectHandler.setRedirecting,
      RedirectHandler.setError, modify. cbn [snd].
    rewrite failure_state by done. by repeat split. }
  split.
  - intros [-> | [-> | (code & -> & Hnone)]].
    + apply Hmissing. unfold w', RedirectHandler.effect. by run.
    + apply Hmissing. unfold w', RedirectHandler.effect. by run.
    + destruct code as [| c code].
      { apply Hmissing. unfold w', RedirectHandler.effect. by run. }
      apply findUrlByShortCode_None in Hnone.
      unfold w', RedirectHandler.effect. rewrite Hnone.
      step. cbv beta. step. cbv beta.
      match goal with |- context [Logger.warn ?m ?d ?s ?w0] =>
        pose proof (addLog_log_only warn_level m d s w0) as Hlog;
        fold (Logger.warn m d s w0) in Hlog end.
      destruct Hlog as [Hstore Hurls _ _ _ _ _ Hcount].
      unfold RedirectHandler.setRedirecting, RedirectHandler.setError,
        modify. cbn [snd].
      rewrite failure_state by done. unfold records_unchanged. fields.
      rewrite Hurls, Hcount, Hstore by done. by repeat split.
  - intros code record -> Hne Hfound Hexpired.
    destruct code as [| c code]; [done |].
    unfold w', RedirectHandler.effect. rewrite Hfound.
    step. cbv beta. rewrite isUrlExpired_result, Hexpired.
    step. cbv beta. step. cbv beta.
    match goal with |- context [Logger.warn ?m ?d ?s ?w0] =>
      pose proof (addLog_log_only warn_level m d s w0) as Hlog;
      fold (Logger.warn m d s w0) in Hlog end.
    destruct Hlog as [Hstore Hurls _ _ _ _ _ Hcount].
    unfold RedirectHandler.setRedirecting, RedirectHandler.setError,
      modify. cbn [snd].
    rewrite failure_state by done. unfold records_unchanged. fields.
    rewrite Hurls, Hcount, Hstore by done.
    unfold useUrlStorage.isUrlExpired. run. fields. by repeat split.
Qed.
End resolver.

(** A record that expired before the first reading of the sample clock. *)
Lemma resolution_failures_witness :
  let record :=
    mkShortenedUrl (lit "k3x9p2q1z") (lit "https://example.com")
      (lit "abc123") (of_Z 0) (of_Z 60000) (of_Z 1) [] true in
  RedirectHandler.state_of
    (@RedirectHandler.effect sample_browser (Some (lit "abc123")) [record]
       (world_holding [record])).2 = Expired
  /\
  RedirectHandler.state_of
    (@RedirectHandler.effect sample_browser (Some (lit "zzz999")) [record]
       (world_holding [record])).2 = NotFound.
Proof.
  intros record. split.
  - apply (proj2 (@resolution_failures sample_browser (Some (lit "abc123"))
                    [record] (world_holding [record])) (lit "abc123") record).
    + reflexivity.
    + discriminate.
    + reflexivity.
    + reflexivity.
  - apply (proj1 (@resolution_failures sample_browser (Some (lit "zzz999"))
                    [record] (world_holding [record]))).
    right. right. exists (lit "zzz999"). split; [reflexivity |].
    constructor; [| constructor]. intros [Hcode _]. discriminate Hcode.
Defined.

(** * Further properties of the code *)

(** ** Simulated network data *)

Lemma array_get_position {A} (a : list A) (k : nat) :
  array_get a (of_Z (Z.of_nat k)) = a !! k.
Proof.
  unfold array_get, is_integer, of_Z.
  rewrite Qfloor_Z, Qeq_bool_refl.
  destruct (Z.leb_spec 0 (Z.of_nat k)); [| lia].
  cbn [andb]. by rewrite Nat2Z.id.
Qed.

Section simulated.
Context `{Browser}.

Lemma octet_spec (w : World) :
  exists z : Z,
    (0 <= z <= 254)%Z
    /\ (urlUtils.octet w).1 = Number_toString (of_Z z) 10
    /\ (urlUtils.octet w).2 = set_draws (S (draws w)) w.
Proof.
  unfold urlUtils.octet. run.
  destruct (Math_random_range (draws w)) as [Hlo Hhi].
  destruct (random_position (Math_random (draws w)) 255 Hlo Hhi)
    as (k & Hk & Hfloor); [lia |].
  exists (Z.of_nat k). split; [lia |].
  change (of_Z 255) with (of_nat 255). by rewrite Hfloor.
Qed.

(** The simulated address is four decimal numbers, each between 0 and 254
    (255 never occurs), joined by dots; producing it costs four random
    draws and changes nothing else. *)
Theorem getSimulatedIP_spec (w : World) :
  exists a b c d : Z,
    (0 <= a <= 254)%Z /\ (0 <= b <= 254)%Z
    /\ (0 <= c <= 254)%Z /\ (0 <= d <= 254)%Z
    /\ (urlUtils.getSimulatedIP w).1 =
       Number_toString (of_Z a) 10 ++ lit "."
       ++ Number_toString (of_Z b) 10 ++ lit "."
       ++ Number_toString (of_Z c) 10 ++ lit "."
       ++ Number_toString (of_Z d) 10
    /\ (urlUtils.getSimulatedIP w).2 = set_draws (4 + draws w) w.
Proof.
  unfold urlUtils.getSimulatedIP.
  repeat (step; cbv beta).
  destruct (octet_spec w) as (a & Ha & -> & ->).
  match goal with |- context [urlUtils.octet ?w0] =>
    destruct (octet_spec w0) as (b & Hb & -> & ->) end.
  match goal with |- context [urlUtils.octet ?w0] =>
    destruct (octet_spec w0) as (c & Hc & -> & ->) end.
  match goal with |- context [urlUtils.octet ?w0] =>
    destruct (octet_spec w0) as (d & Hd & -> & ->) end.
  exists a, b, c, d. unfold ret. cbn [fst snd].
  do 4 (split; [done |]). split; reflexivity.
Qed.

(** The simulated location is always one of the six listed places, never
    [undefined]. *)
Theorem getCoarseLocation_spec (w : World) :
  (urlUtils.getCoarseLocation w).1 ∈ urlUtils.locations
  /\ (urlUtils.getCoarseLocation w).2 = set_draws (S (draws w)) w.
Proof.
  unfold urlUtils.getCoarseLocation. run. split; [| done].
  destruct (Math_random_range (draws w)) as [Hlo Hhi].
  destruct (random_position (Math_random (draws w))
              (length urlUtils.locations) Hlo Hhi) as (k & Hk & ->).
  { cbn. lia. }
  rewrite array_get_position.
  destruct (lookup_lt_is_Some_2 urlUtils.locations k Hk) as [place Hplace].
  rewrite Hplace. cbn [default]. apply list_elem_of_lookup. eauto.
Qed.
End simulated.

(** ** Persistence of the event log *)

Section log_persistence.
Context `{Browser}.

Lemma addLog_storage level message data source (w : World) :
  let w' := (Logger.addLog level message data source w).2 in
  let written :=
    <["app-logs" := JSON_stringify_logs (logs w')]> (localStorage w) in
  localStorage w' = if storage_fits written then written else localStorage w.
Proof.
  intros w' written.
  assert (Hlogs : logs w' =
                  take Logger.maxLogs
                    (appended level message data source w :: logs w))
    by apply addLog_logs.
  unfold written. rewrite Hlogs. clear written Hlogs. unfold w'.
  unfold Logger.addLog, Logger.generateId. run. fields.
  fold (appended level message data source w).
  set (e := appended level message data source w).
  unfold Logger.saveLogs, setItem. run.
  destruct (Nat.ltb_spec Logger.maxLogs (length (e :: logs w)))
    as [Hgt | Hle]; cbn [snd]; fields;
    rewrite ?(take_ge (e :: logs w)) by done;
    destruct (storage_fits _); cbn [snd]; fields; done.
Qed.

(** After an append, the persisted copy is the encoding of the whole log
    in memory when the storage accepted the write; when it refused, the
    storage is as before.  In both cases the entry is in memory. *)
Theorem addLog_persists level message data source (w : World) :
  let w' := (Logger.addLog level message data source w).2 in
  let written :=
    <["app-logs" := JSON_stringify_logs (logs w')]> (localStorage w) in
  logs w' !! 0%nat = Some (appended level message data source w)
  /\ (storage_fits written = true -> localStorage w' = written)
  /\ (storage_fits written = false -> localStorage w' = localStorage w).
Proof.
  intros w' written. split.
  - unfold w'. by rewrite addLog_logs.
  - pose proof (addLog_storage level message data source w) as Hstore.
    cbv zeta in Hstore. fold w' in Hstore. fold written in Hstore.
    split; intros Hfits; by rewrite Hfits in Hstore.
Qed.

Lemma constructor_logs (w : World) :
  logs (Logger.constructor w).2 =
  match localStorage w !! "app-logs" with
  | Some text =>
      if truthy text then default [] (JSON_parse_logs text) else []
  | None => []
  end.
Proof.
  unfold Logger.constructor, Logger.loadLogs. run. fields.
  destruct (localStorage w !! "app-logs") as [text |]; [| done].
  destruct (truthy text); [| done].
  by destruct (JSON_parse_logs text).
Qed.

(** A log that was persisted is what a new [Logger] starts with on the
    next load of the page, when the codec reads back what it wrote. *)
Theorem log_survives_reload level message data source (w next : World) :
  let w' := (Logger.addLog level message data source w).2 in
  storage_fits
    (<["app-logs" := JSON_stringify_logs (logs w')]> (localStorage w))
  = true ->
  JSON_stringify_logs (logs w') <> [] ->
  JSON_parse_logs (JSON_stringify_logs (logs w')) = Some (logs w') ->
  localStorage next = localStorage w' ->
  logs (Logger.constructor next).2 = logs w'.
Proof.
  intros w' Hfits Hne Hcodec Hnext.
  pose proof (addLog_storage level message data source w) as Hsaved.
  cbv zeta in Hsaved. fold w' in Hsaved. rewrite Hfits in Hsaved.
  rewrite constructor_logs, Hnext, Hsaved.
  rewrite lookup_insert_eq.
  destruct (JSON_stringify_logs (logs w')) as [| c text] eqn:Htext; [done |].
  cbn [truthy]. by rewrite Hcodec.
Qed.

(** [clearLogs] empties the log and removes its persisted copy, leaving
    the other keys of the storage alone; a new [Logger] on any later load
    of that storage starts empty. *)
Theorem clearLogs_spec (w next : World) :
  let w' := (Logger.clearLogs w).2 in
  localStorage next = localStorage w' ->
  logs w' = []
  /\ localStorage w' = delete "app-logs" (localStorage w)
  /\ logs (Logger.constructor next).2 = [].
Proof.
  intros w' Hnext.
  assert (Hstore : localStorage w' = delete "app-logs" (localStorage w)).
  { unfold w', Logger.clearLogs. by run. }
  split; [unfold w', Logger.clearLogs; by run |]. split; [exact Hstore |].
  by rewrite constructor_logs, Hnext, Hstore, lookup_delete_eq.
Qed.
End log_persistence.

Lemma addLog_persists_witness :
  let w' :=
    (@Logger.addLog sample_browser info_level (lit "Application started")
       undefined (Some (lit "MainApp")) initial_world).2 in
  localStorage w' = {[ "app-logs" := lit "[...]" ]}.
Proof.
  intros w'.
  apply (proj1 (proj2 (@addLog_persists sample_browser info_level
                         (lit "Application started") undefined
                         (Some (lit "MainApp")) initial_world))).
  reflexivity.
Defined.

Lemma log_survives_reload_witness :
  logs (@Logger.constructor codec_browser
          (set_localStorage {[ "app-logs" := lit "[1]" ]} initial_world)).2
  = [known_entry].
Proof.
  apply (@log_survives_reload codec_browser info_level
           (lit "Application started") undefined (Some (lit "MainApp"))
           initial_world
           (set_localStorage {[ "app-logs" := lit "[1]" ]} initial_world)).
  - reflexivity.
  - discriminate.
  - vm_compute. reflexivity.
  - vm_compute. reflexivity.
Defined.

Lemma clearLogs_spec_witness :
  logs (Logger.clearLogs
          (set_logs [known_entry]
             (set_localStorage {[ "app-logs" := lit "[...]" ]}
                initial_world))).2 = [].
Proof.
  apply (@clearLogs_spec sample_browser
           (set_logs [known_entry]
              (set_localStorage {[ "app-logs" := lit "[...]" ]}
                 initial_world))
           initial_world).
  vm_compute. reflexivity.
Defined.

(** ** The record store *)

(** [findUrlByShortCode] answers the first record that is active and has
    the code, whether or not it has expired. *)
Theorem findUrlByShortCode_first (shortenedUrls : list ShortenedUrl)
    (code : jsstring) (record : ShortenedUrl) :
  useUrlStorage.findUrlByShortCode shortenedUrls code = Some record <->
  exists i : nat,
    shortenedUrls !! i = Some record
    /\ shortCode record = code /\ isActive record = true
    /\ forall (j : nat) (other : ShortenedUrl),
         (j < i)%nat -> shortenedUrls !! j = Some other ->
         ~ (shortCode other = code /\ isActive other = true).
Proof.
  unfold useUrlStorage.findUrlByShortCode.
  induction shortenedUrls as [| url urls IH]; cbn [find].
  - split; [done | intros (i & Hi & _); done].
  - destruct (str_eq (shortCode url) code && isActive url) eqn:Hurl.
    + apply andb_prop in Hurl as [Hcode Hactive].
      apply bool_decide_eq_true in Hcode.
      split.
      * intros [= <-]. exists 0%nat. repeat split; try done.
        intros j other Hj. lia.
      * intros (i & Hi & _ & _ & Hfirst).
        destruct i as [| i]; [cbn in Hi; congruence |].
        exfalso. apply (Hfirst 0%nat url); [lia | done | done].
    + assert (Hnot : ~ (shortCode url = code /\ isActive url = true)).
      { intros [Hcode Hactive]. rewrite Hactive, andb_true_r in Hurl.
        apply bool_decide_eq_false in Hurl. done. }
      rewrite IH. split.
      * intros (i & Hi & Hcode & Hactive & Hfirst).
        exists (S i). repeat split; try done.
        intros [| j] other Hj Hother; cbn in Hother.
        -- by injection Hother as <-.
        -- apply (Hfirst j other); [lia | done].
      * intros (i & Hi & Hcode & Hactive & Hfirst).
        destruct i as [| i].
        -- cbn in Hi. injection Hi as ->. exfalso. by apply Hnot.
        -- exists i. repeat split; try done.
           intros j other Hj Hother. apply (Hfirst (S j) other); [lia | done].
Qed.

Section store_extra.
Context `{Browser}.

Lemma set_ticks_twice (a b : nat) (w : World) :
  set_ticks a (set_ticks b w) = set_ticks a w.
Proof. reflexivity. Qed.

Lemma filter_active_spec (urls : list ShortenedUrl) (w : World) :
  let result := (useUrlStorage.filter_active urls w).1 in
  let w' := (useUrlStorage.filter_active urls w).2 in
  sublist result urls
  /\ w' = set_ticks (ticks w' ) w
  /\ (ticks w <= ticks w')%nat
  /\ (forall url, url ∈ result ->
        isActive url = true
        /\ exists k : nat,
             (ticks w <= k < ticks w')%nat
             /\ num_gt (of_Z (Date_now k)) (expiresAt url) = false)
  /\ (forall url, url ∈ urls -> url ∉ result ->
        isActive url = false
        \/ exists k : nat,
             (ticks w <= k < ticks w')%nat
             /\ num_gt (of_Z (Date_now k)) (expiresAt url) = true).
Proof.
  revert w. induction urls as [| url urls IH]; intros w result w'.
  - unfold result, w'. cbn. split; [done |]. split; [by destruct w |].
    split; [done |].
    split; intros u Hu; by apply elem_of_nil in Hu.
  - unfold result, w'. clear result w'.
    cbn [useUrlStorage.filter_active].
    repeat (step; cbv beta). unfold ret. cbn [fst snd].
    destruct (isActive url) eqn:Hactive.
    + repeat (step; cbv beta). unfold ret. cbn [fst snd].
      rewrite isUrlExpired_result.
      assert (Hw1 : (useUrlStorage.isUrlExpired url w).2 =
                    set_ticks (S (ticks w)) w)
        by (unfold useUrlStorage.isUrlExpired; by run).
      rewrite Hw1. set (w1 := set_ticks (S (ticks w)) w).
      specialize (IH w1). cbv zeta in IH.
      destruct IH as (Hsub & Hworld & Hticks & Hin & Hout).
      set (rest := (useUrlStorage.filter_active urls w1).1) in *.
      set (w2 := (useUrlStorage.filter_active urls w1).2) in *.
      assert (Hticks1 : ticks w1 = S (ticks w)) by reflexivity.
      split.
      { destruct (negb _); [by apply sublist_skip | by apply sublist_cons]. }
      split; [rewrite Hworld at 1; unfold w1; by rewrite set_ticks_twice |].
      split; [lia |]. split.
      * intros u Hu.
        destruct (num_gt (of_Z (Date_now (ticks w))) (expiresAt url))
          eqn:Hexp; cbn [negb] in Hu.
        -- destruct (Hin u Hu) as (Hact & k & Hk & Hnot).
           split; [done |]. exists k. split; [lia | done].
        -- apply elem_of_cons in Hu as [-> | Hu].
           ++ split; [done |]. exists (ticks w). split; [lia | done].
           ++ destruct (Hin u Hu) as (Hact & k & Hk & Hnot).
              split; [done |]. exists k. split; [lia | done].
      * intros u Hu Hnotin.
        destruct (num_gt (of_Z (Date_now (ticks w))) (expiresAt url))
          eqn:Hexp; cbn [negb] in Hnotin.
        -- apply elem_of_cons in Hu as [-> | Hu].
           ++ right. exists (ticks w). split; [lia | done].
           ++ destruct (Hout u Hu Hnotin) as [Hinact | (k & Hk & Hyes)];
                [by left | right]. exists k. split; [lia | done].
        -- apply not_elem_of_cons in Hnotin as [Hne Hnotin].
           apply elem_of_cons in Hu as [-> | Hu]; [done |].
           destruct (Hout u Hu Hnotin) as [Hinact | (k & Hk & Hyes)];
             [by left | right]. exists k. split; [lia | done].
    + unfold ret. cbn [fst snd].
      specialize (IH w). cbv zeta in IH.
      destruct IH as (Hsub & Hworld & Hticks & Hin & Hout).
      split; [by apply sublist_cons |]. split; [done |]. split; [done |].
      split; [done |].
      intros u Hu Hnotin. apply elem_of_cons in Hu as [-> | Hu]; [by left |].
      by apply Hout.
Qed.

(** [getActiveUrls] answers, in their order, only active records: each one
    was not expired at a clock reading made during the call, and an active
    record that is left out was expired at such a reading.  Nothing but the
    clock is touched. *)
Theorem getActiveUrls_spec (shortenedUrls : list ShortenedUrl) (w : World) :
  let result := (useUrlStorage.getActiveUrls shortenedUrls w).1 in
  let w' := (useUrlStorage.getActiveUrls shortenedUrls w).2 in
  sublist result shortenedUrls
  /\ w' = set_ticks (ticks w') w
  /\ (forall url, url ∈ result ->
        isActive url = true
        /\ exists k : nat,
             (ticks w <= k < ticks w')%nat
             /\ num_gt (of_Z (Date_now k)) (expiresAt url) = false)
  /\ (forall url, url ∈ shortenedUrls -> url ∉ result ->
        isActive url = false
        \/ exists k : nat,
             (ticks w <= k < ticks w')%nat
             /\ num_gt (of_Z (Date_now k)) (expiresAt url) = true).
Proof.
  intros result w'.
  destruct (filter_active_spec shortenedUrls w)
    as (Hsub & Hworld & _ & Hin & Hout).
  split; [exact Hsub |]. split; [exact Hworld |].
  split; [exact Hin | exact Hout].
Qed.
End store_extra.

Lemma getActiveUrls_spec_witness :
  let record :=
    mkShortenedUrl (lit "k3x9p2q1z") (lit "https://example.com")
      (lit "abc123") (of_Z 1700000000000) (of_Z 1700001800000) (of_Z 30)
      [] true in
  exists k : nat,
    (k < ticks (@useUrlStorage.getActiveUrls sample_browser [record]
                  initial_world).2)%nat
    /\ num_gt (of_Z (@Date_now sample_browser k)) (expiresAt record) = false.
Proof.
  intros record.
  destruct (proj1 (proj2 (proj2 (@getActiveUrls_spec sample_browser [record]
                                   initial_world))) record)
    as (_ & k & Hk & Hreading).
  - assert (Hresult :
      (@useUrlStorage.getActiveUrls sample_browser [record] initial_world).1
      = [record]) by (vm_compute; reflexivity).
    rewrite Hresult. apply list_elem_of_here.
  - exists k. split; [apply Hk | exact Hreading].
Defined.

Section store_persistence.
Context `{Browser}.

Lemma addLog_newest level message data source (w : World) :
  logs (Logger.addLog level message data source w).2 !! 0%nat =
  Some (appended level message data source w).
Proof. by rewrite addLog_logs. Qed.

(** [saveUrls] reports its outcome to the log and never fails: when the
    storage accepts the write, the collection is stored and becomes the one
    in memory, and the newest log entry is the information that it was
    saved; when the storage refuses, both stay as they were and the newest
    log entry is an error. *)
Theorem saveUrls_outcome (urls : list ShortenedUrl) (w : World) :
  let w' := (useUrlStorage.saveUrls urls w).2 in
  let written :=
    <["shortened-urls" := JSON_stringify_urls urls]> (localStorage w) in
  (storage_fits written = true ->
   shortenedUrls_cell w' = urls
   /\ localStorage w' !! "shortened-urls" = Some (JSON_stringify_urls urls)
   /\ exists entry : LogEvent,
        logs w' !! 0%nat = Some entry
        /\ level entry = info_level
        /\ message entry = lit "Saved URLs to storage")
  /\
  (storage_fits written = false ->
   shortenedUrls_cell w' = shortenedUrls_cell w
   /\ localStorage w' !! "shortened-urls" =
      localStorage w !! "shortened-urls"
   /\ exists entry : LogEvent,
        logs w' !! 0%nat = Some entry
        /\ level entry = error_level
        /\ message entry = lit "Failed to save URLs to storage").
Proof.
  intros w' written.
  destruct (saveUrls_spec urls w) as [Hfits Hfull].
  fold w' written in Hfits, Hfull.
  split; intros Hwritten.
  - destruct (Hfits Hwritten) as [Hcell Hstore].
    split; [done |]. split; [done |].
    unfold w', useUrlStorage.saveUrls. step. cbv beta.
    unfold setItem. fold written. rewrite Hwritten. cbn [fst snd].
    step. cbv beta. unfold Logger.info. rewrite addLog_newest.
    eexists. split; [reflexivity |]. done.
  - destruct (Hfull Hwritten) as [Hcell Hstore].
    split; [done |]. split; [done |].
    unfold w', useUrlStorage.saveUrls. step. cbv beta.
    unfold setItem. fold written. rewrite Hwritten. cbn [fst snd].
    unfold Logger.error. rewrite addLog_newest.
    eexists. split; [reflexivity |]. done.
Qed.

Lemma loadUrls_cell (w : World) :
  shortenedUrls_cell (useUrlStorage.loadUrls w).2 =
  match localStorage w !! "shortened-urls" with
  | Some text =>
      if truthy text
      then default (shortenedUrls_cell w) (JSON_parse_urls text)
      else shortenedUrls_cell w
  | None => shortenedUrls_cell w
  end.
Proof.
  unfold useUrlStorage.loadUrls. step. cbv beta.
  unfold getItem, get. cbn [fst snd].
  destruct (localStorage w !! "shortened-urls") as [text |]; [| done].
  destruct (truthy text); [| done].
  destruct (JSON_parse_urls text) as [urls |].
  - step. cbv beta. unfold useUrlStorage.setShortenedUrls, modify.
    cbn [snd].
    match goal with |- context [Logger.info ?m ?d ?s ?w0] =>
      pose proof (addLog_log_only info_level m d s w0) as Hlog;
      fold (Logger.info m d s w0) in Hlog end.
    by rewrite (same_shortenedUrls _ _ Hlog).
  - match goal with |- context [Logger.error ?m ?d ?s ?w0] =>
      pose proof (addLog_log_only error_level m d s w0) as Hlog;
      fold (Logger.error m d s w0) in Hlog end.
    by rewrite (same_shortenedUrls _ _ Hlog).
Qed.

(** A collection that was saved is the collection [loadUrls] puts in
    memory on the next load of the page, when the codec reads back what it
    wrote. *)
Theorem urls_survive_reload (urls : list ShortenedUrl) (w next : World) :
  let w' := (useUrlStorage.saveUrls urls w).2 in
  storage_fits
    (<["shortened-urls" := JSON_stringify_urls urls]> (localStorage w))
  = true ->
  JSON_stringify_urls urls <> [] ->
  JSON_parse_urls (JSON_stringify_urls urls) = Some urls ->
  localStorage next !! "shortened-urls" =
  localStorage w' !! "shortened-urls" ->
  shortenedUrls_cell (useUrlStorage.loadUrls next).2 = urls.
Proof.
  intros w' Hfits Hne Hcodec Hnext.
  destruct (saveUrls_spec urls w) as [Hsaved _].
  destruct (Hsaved Hfits) as [_ Hstore]. fold w' in Hstore.
  rewrite loadUrls_cell, Hnext, Hstore.
  destruct (JSON_stringify_urls urls) as [| c text] eqn:Htext; [done |].
  cbn [truthy]. by rewrite Hcodec.
Qed.

Lemma loadUrls_nothing_stored (w : World) :
  localStorage w !! "shortened-urls" = None
  \/ localStorage w !! "shortened-urls" = Some [] ->
  useUrlStorage.loadUrls w = (tt, w).
Proof.
  intros Hstored. unfold useUrlStorage.loadUrls, bind, getItem, get.
  by destruct Hstored as [-> | ->].
Qed.

(** Loading is never fatal.  With no stored value, or an empty one,
    [loadUrls] does nothing at all; with a value that does not parse, the
    collection in memory and the stored value stay as they were and the
    newest log entry is an error. *)
Theorem loadUrls_edge_cases (w : World) :
  ((localStorage w !! "shortened-urls" = None
    \/ localStorage w !! "shortened-urls" = Some []) ->
   useUrlStorage.loadUrls w = (tt, w))
  /\
  (forall text : jsstring,
     localStorage w !! "shortened-urls" = Some text ->
     text <> [] ->
     JSON_parse_urls text = None ->
     let w' := (useUrlStorage.loadUrls w).2 in
     shortenedUrls_cell w' = shortenedUrls_cell w
     /\ localStorage w' !! "shortened-urls" = Some text
     /\ exists entry : LogEvent,
          logs w' !! 0%nat = Some entry
          /\ level entry = error_level
          /\ message entry = lit "Failed to load URLs from storage").
Proof.
  split; [apply loadUrls_nothing_stored |].
  - intros text Hstored Hne Hparse w'.
    split; [unfold w'; rewrite loadUrls_cell, Hstored, Hparse;
            by destruct (truthy text) |].
    unfold w', useUrlStorage.loadUrls. step. cbv beta.
    unfold getItem, get. cbn [fst snd]. rewrite Hstored.
    destruct text as [| c text]; [done |]. cbn [truthy].
    rewrite Hparse. unfold Logger.error. split.
    + rewrite (same_storage _ _ (addLog_log_only _ _ _ _ w)) by done.
      exact Hstored.
    + rewrite addLog_newest. eexists. split; [reflexivity |]. done.
Qed.

Lemma clearAllUrls_world (w : World) :
  shortenedUrls_cell (useUrlStorage.clearAllUrls w).2 = []
  /\ localStorage (useUrlStorage.clearAllUrls w).2 !! "shortened-urls" = None.
Proof.
  unfold useUrlStorage.clearAllUrls. step. cbv beta. step. cbv beta.
  match goal with |- context [Logger.info ?m ?d ?s ?w0] =>
    pose proof (addLog_log_only info_level m d s w0) as Hlog;
    fold (Logger.info m d s w0) in Hlog end.
  rewrite (same_shortenedUrls _ _ Hlog), (same_storage _ _ Hlog) by done.
  unfold useUrlStorage.setShortenedUrls, removeItem, modify.
  cbn [snd]. fields. by rewrite lookup_delete_eq.
Qed.

(** [clearAllUrls] leaves no record in memory nor in the storage; doing it
    again changes neither, and a later [loadUrls] finds nothing to load.
    [handleClearAll] does the same once the user has confirmed, and nothing
    at all when the user declined. *)
Theorem clearAllUrls_spec (w : World) :
  let w1 := (useUrlStorage.clearAllUrls w).2 in
  let w2 := (useUrlStorage.clearAllUrls w1).2 in
  shortenedUrls_cell w1 = []
  /\ localStorage w1 !! "shortened-urls" = None
  /\ shortenedUrls_cell w2 = []
  /\ localStorage w2 !! "shortened-urls" = None
  /\ useUrlStorage.loadUrls w1 = (tt, w1)
  /\ shortenedUrls_cell (Statistics.handleClearAll true w).2 = []
  /\ localStorage (Statistics.handleClearAll true w).2 !! "shortened-urls"
     = None
  /\ Statistics.handleClearAll false w = (tt, w).
Proof.
  intros w1 w2.
  destruct (clearAllUrls_world w) as [Hcell1 Hstore1].
  destruct (clearAllUrls_world w1) as [Hcell2 Hstore2].
  do 4 (split; [done |]).
  split; [apply loadUrls_nothing_stored; by left |].
  split; [| split; [| reflexivity]].
  - unfold Statistics.handleClearAll. step. cbv beta. unfold Logger.info.
    rewrite (same_shortenedUrls _ _ (addLog_log_only _ _ _ _ _)).
    exact Hcell1.
  - unfold Statistics.handleClearAll. step. cbv beta. unfold Logger.info.
    rewrite (same_storage _ _ (addLog_log_only _ _ _ _ _)) by done.
    exact Hstore1.
Qed.
End store_persistence.

Lemma urls_survive_reload_witness :
  shortenedUrls_cell
    (@useUrlStorage.loadUrls codec_browser
       (set_localStorage {[ "shortened-urls" := lit "[1]" ]} initial_world)).2
  = [known_record].
Proof.
  apply (@urls_survive_reload codec_browser [known_record] initial_world
           (set_localStorage {[ "shortened-urls" := lit "[1]" ]}
              initial_world)).
  - reflexivity.
  - discriminate.
  - vm_compute. reflexivity.
  - vm_compute. reflexivity.
Defined.

Lemma saveUrls_outcome_witness :
  shortenedUrls_cell
    (@useUrlStorage.saveUrls full_browser [known_record] initial_world).2
  = [].
Proof.
  apply (proj2 (@saveUrls_outcome full_browser [known_record] initial_world)).
  reflexivity.
Defined.

Lemma loadUrls_edge_cases_witness :
  shortenedUrls_cell
    (@useUrlStorage.loadUrls sample_browser
       (set_localStorage {[ "shortened-urls" := lit "{oops" ]}
          (world_holding [known_record]))).2
  = [known_record].
Proof.
  apply (proj2 (@loadUrls_edge_cases sample_browser
                  (set_localStorage {[ "shortened-urls" := lit "{oops" ]}
                     (world_holding [known_record])))
           (lit "{oops")).
  - reflexivity.
  - discriminate.
  - reflexivity.
Defined.

(** ** Acceptance of a batch *)

Lemma alphabet_not_white_space (c : N) :
  c ∈ alphabet -> is_white_space c = false.
Proof.
  assert (Hall : Forall (fun c => is_white_space c = false) alphabet)
    by compute_done.
  rewrite Forall_forall in Hall. apply Hall.
Qed.

Lemma trimStart_head (c : N) (s : jsstring) :
  is_white_space c = false -> trimStart (c :: s) = c :: s.
Proof. intros Hc. cbn [trimStart]. by rewrite Hc. Qed.

(** A code that passes [validateShortCode] has nothing to trim. *)
Lemma trim_valid (s : jsstring) :
  urlUtils.validateShortCode s = true -> trim s = s.
Proof.
  intros Hvalid. apply validateShortCode_true in Hvalid as [Hall Hlen].
  unfold trim, trimEnd.
  destruct s as [| c s]; [done |].
  rewrite trimStart_head
    by (apply alphabet_not_white_space; by inversion Hall).
  destruct (reverse (c :: s)) as [| d r] eqn:Hrev.
  - apply (f_equal length) in Hrev. rewrite length_reverse in Hrev. done.
  - rewrite trimStart_head.
    + by rewrite <- Hrev, reverse_involutive.
    + apply alphabet_not_white_space.
      rewrite Forall_forall in Hall. apply Hall.
      apply elem_of_reverse. rewrite Hrev. apply list_elem_of_here.
Qed.

Lemma truthy_true (s : jsstring) : truthy s = true <-> s <> [].
Proof. by destruct s. Qed.

Lemma isShortCodeUnique_true (code : jsstring)
    (existingUrls : list ShortenedUrl) :
  urlUtils.isShortCodeUnique code existingUrls = true <->
  Forall (fun url => shortCode url <> code) existingUrls.
Proof.
  unfold urlUtils.isShortCodeUnique.
  rewrite negb_true_iff, <- not_true_iff_false, existsb_exists, Forall_forall.
  split.
  - intros Hnone url Hurl Hcode. apply Hnone. exists url.
    split; [by apply list_elem_of_In | by apply bool_decide_eq_true].
  - intros Hall (url & Hurl & Hcode). apply bool_decide_eq_true in Hcode.
    by apply (Hall url); [apply list_elem_of_In |].
Qed.

Section acceptance.
Context `{Browser}.
Variable shortenedUrls : list ShortenedUrl.

Local Abbreviation validateForm :=
  (UrlShortenerForm.validateForm shortenedUrls).

Lemma validateForm_empty_iff (i : nat) (form : UrlFormData) :
  validateForm i form = ∅ <->
  trim (f_originalUrl form) <> []
  /\ URL_parses (f_originalUrl form) = true
  /\ (trim (customShortCode form) = []
      \/ (urlUtils.validateShortCode (customShortCode form) = true
          /\ Forall (fun url => shortCode url <> customShortCode form)
               shortenedUrls))
  /\ ~ out_of_range (f_validityMinutes form).
Proof.
  rewrite <- range_test, <- isShortCodeUnique_true, <- truthy_true.
  unfold UrlShortenerForm.validateForm, urlUtils.validateUrl.
  destruct (truthy (trim (f_originalUrl form)));
    destruct (URL_parses (f_originalUrl form));
    destruct (trim (customShortCode form)) as [| c code];
    destruct (urlUtils.validateShortCode (customShortCode form));
    destruct (urlUtils.isShortCodeUnique (customShortCode form)
                shortenedUrls);
    destruct (num_lt _ _ || num_gt _ _);
    cbn [negb truthy];
    (split;
     [ intros Hempty;
       try (by apply insert_non_empty in Hempty);
       repeat split; try done; try (by left); try (by right)
     | intros (Hurl & Hparse & Hcode & Hrange);
       try done; try (by destruct Hrange);
       try (destruct Hcode as [Hcode | [Hcode1 Hcode2]]; done) ]).
Qed.

(** A request raises no field error exactly when its URL is not blank and
    parses, its custom code is blank or else well formed and carried by no
    existing record, active or not, and its validity is not out of range.
    A custom code with white space around it is never accepted. *)
Theorem validateForm_accepts (i : nat) (form : UrlFormData) :
  (validateForm i form = ∅ <->
   trim (f_originalUrl form) <> []
   /\ URL_parses (f_originalUrl form) = true
   /\ (trim (customShortCode form) = []
       \/ (urlUtils.validateShortCode (customShortCode form) = true
           /\ Forall (fun url => shortCode url <> customShortCode form)
                shortenedUrls))
   /\ ~ out_of_range (f_validityMinutes form))
  /\
  (validateForm i form = ∅ ->
   trim (customShortCode form) <> [] ->
   trim (customShortCode form) = customShortCode form).
Proof.
  split; [apply validateForm_empty_iff |].
  intros Hempty Hne.
  apply validateForm_empty_iff in Hempty
    as (_ & _ & [Hblank | [Hvalid _]] & _);
    [done | by apply trim_valid].
Qed.

Lemma checked_clean (items : list (nat * UrlFormData))
    (acc : AllErrors * bool) :
  (forall item, item ∈ items -> validateForm item.1 item.2 = ∅) ->
  foldl (UrlShortenerForm.check_form shortenedUrls) acc items = acc.
Proof.
  revert acc. induction items as [| item items IH]; intros acc Hclean;
    [done |].
  cbn [foldl]. unfold UrlShortenerForm.check_form at 2.
  rewrite (Hclean item) by apply list_elem_of_here.
  rewrite map_size_empty. cbn. apply IH.
  intros other Hother. by apply Hclean, list_elem_of_further.
Qed.

Lemma clean_batch (forms : list UrlFormData) :
  (forall (i : nat) (form : UrlFormData),
     forms !! i = Some form -> validateForm i form = ∅) ->
  (forall j : nat, ~ repeats_earlier_code forms j) ->
  UrlShortenerForm.collect_errors shortenedUrls forms = (∅, false).
Proof.
  intros Hfields Hdistinct. unfold UrlShortenerForm.collect_errors.
  rewrite checked_clean.
  - destruct (UrlShortenerForm.duplicates forms) as [| d ds] eqn:Hdup;
      [done |].
    exfalso. apply (Hdistinct (index d)).
    apply duplicate_has_earlier. rewrite Hdup. apply list_elem_of_here.
  - intros item Hitem.
    apply elem_of_lookup_imap in Hitem as (i & form & -> & Hform).
    by apply (Hfields i).
Qed.

Lemma accepted_batch (forms : list UrlFormData) :
  (UrlShortenerForm.collect_errors shortenedUrls forms).2 = false ->
  (forall (i : nat) (form : UrlFormData),
     forms !! i = Some form -> validateForm i form = ∅)
  /\ (forall j : nat, ~ repeats_earlier_code forms j).
Proof.
  intros Hok. split.
  - intros i form Hform.
    destruct (decide (validateForm i form = ∅)) as [Hempty | Hne];
      [done |].
    rewrite (field_error_fails shortenedUrls forms i form Hform Hne) in Hok.
    done.
  - intros j (i & first & second & Hij & Hi & Hj & Hsame & Hne).
    pose proof (later_occurrence_found forms i j first second
                  Hij Hi Hj Hsame Hne) as Hfound.
    unfold UrlShortenerForm.collect_errors in Hok.
    rewrite flagged_keeps in Hok; [done |].
    right. intros Hnil. rewrite Hnil in Hfound.
    by apply elem_of_nil in Hfound.
Qed.

(** [validateAllForms] accepts a batch exactly when no request raises a
    field error and no request repeats the trimmed custom code of an
    earlier one; it then records no error at all. *)
Theorem validateAllForms_accepts (forms : list UrlFormData) (w : World) :
  ((UrlShortenerForm.validateAllForms shortenedUrls forms w).1 = true <->
   (forall (i : nat) (form : UrlFormData),
      forms !! i = Some form -> validateForm i form = ∅)
   /\ (forall j : nat, ~ repeats_earlier_code forms j))
  /\
  ((UrlShortenerForm.validateAllForms shortenedUrls forms w).1 = true ->
   errors_cell (UrlShortenerForm.validateAllForms shortenedUrls forms w).2
   = ∅).
Proof.
  rewrite validateAllForms_result. cbn [fst snd]. fields.
  rewrite negb_true_iff.
  split.
  - split; [apply accepted_batch |].
    intros [Hfields Hdistinct]. by rewrite clean_batch.
  - intros Hok. destruct (accepted_batch forms Hok) as [Hfields Hdistinct].
    by rewrite clean_batch.
Qed.
End acceptance.

Lemma validateForm_accepts_witness :
  trim (lit "abc123") = lit "abc123".
Proof.
  apply (proj2 (@validateForm_accepts sample_browser [] 0
                  (mkUrlFormData (lit "https://example.com") (lit "abc123")
                     (of_Z 30)))).
  - vm_compute. reflexivity.
  - discriminate.
Defined.

Lemma validateAllForms_accepts_witness :
  errors_cell
    (@UrlShortenerForm.validateAllForms sample_browser []
       [mkUrlFormData (lit "https://example.com") (lit "abc123") (of_Z 30)]
       initial_world).2 = ∅.
Proof.
  apply (proj2 (@validateAllForms_accepts sample_browser []
                  [mkUrlFormData (lit "https://example.com") (lit "abc123")
                     (of_Z 30)] initial_world)).
  vm_compute. reflexivity.
Defined.

(** ** What a submission creates and keeps *)

Lemma generated_code_passes `{Browser} (w : World) :
  urlUtils.validateShortCode (urlUtils.generateRandomShortCode w).1 = true.
Proof.
  destruct (generated_code_shape w) as [Hlen Hall].
  apply validateShortCode_true. split; [done | lia].
Qed.

Section creation.
Context `{Browser}.
Variable shortenedUrls : list ShortenedUrl.

Lemma createUrl_coded (form : UrlFormData) (w : World) :
  coded_from form (UrlShortenerForm.createUrl form w).1.
Proof.
  destruct (createUrl_record form w) as (id & code & now & -> & Hcustom & Hgen).
  unfold coded_from. cbn [shortCode]. split.
  - intros Hne. apply Hcustom. by apply truthy_true.
  - intros Hblank. exists w. apply Hgen. by rewrite Hblank.
Qed.

Lemma createAll_related (R : UrlFormData -> ShortenedUrl -> Prop)
    (pending : list UrlFormData) (createdUrls : list ShortenedUrl)
    (w : World) :
  (forall form w0, R form (UrlShortenerForm.createUrl form w0).1) ->
  exists new : list ShortenedUrl,
    (UrlShortenerForm.createAll shortenedUrls pending createdUrls w).1 =
      createdUrls ++ new
    /\ Forall2 R pending new.
Proof.
  intros HR. revert createdUrls w.
  induction pending as [| form rest IH]; intros createdUrls w.
  - exists []. cbn. by rewrite app_nil_r.
  - cbn [UrlShortenerForm.createAll]. step. cbv beta. step. cbv beta.
    match goal with |- context [UrlShortenerForm.createAll _ rest ?acc ?w0] =>
      destruct (IH acc w0) as (new & -> & Hnew) end.
    exists ((UrlShortenerForm.createUrl form w).1 :: new).
    rewrite <- app_assoc. split; [reflexivity |].
    constructor; [apply HR | exact Hnew].
Qed.

Lemma submit_related (R : UrlFormData -> ShortenedUrl -> Prop)
    (forms : list UrlFormData) (errors : AllErrors) (w : World) :
  (forall form w0, R form (UrlShortenerForm.createUrl form w0).1) ->
  (UrlShortenerForm.validateAllForms shortenedUrls forms w).1 = true ->
  Forall2 R forms (UrlShortenerForm.submit shortenedUrls forms errors w).1.
Proof.
  intros HR Hok. unfold UrlShortenerForm.submit.
  step. cbv beta. step. cbv beta.
  rewrite !validateAllForms_result in *. cbn [fst snd] in *.
  rewrite Hok. cbn [negb]. run.
  match goal with |- context [UrlShortenerForm.createAll _ _ [] ?w0] =>
    destruct (createAll_related R forms [] w0 HR) as (new & -> & Hnew) end.
  exact Hnew.
Qed.

(** Every record created by an accepted batch has a short code that passes
    [validateShortCode].  A record made from a request with a custom code
    carries that code as it was typed, no existing record has it, and two
    such records of the batch never share their code. *)
Theorem created_codes_valid (forms : list UrlFormData) (errors : AllErrors)
    (w : World) :
  (UrlShortenerForm.validateAllForms shortenedUrls forms w).1 = true ->
  let createdUrls :=
    (UrlShortenerForm.submit shortenedUrls forms errors w).1 in
  Forall (fun record =>
            urlUtils.validateShortCode (shortCode record) = true) createdUrls
  /\
  (forall (i : nat) (form : UrlFormData) (record : ShortenedUrl),
     forms !! i = Some form -> createdUrls !! i = Some record ->
     trim (customShortCode form) <> [] ->
     shortCode record = customShortCode form
     /\ Forall (fun url => shortCode url <> shortCode record) shortenedUrls)
  /\
  (forall (i j : nat) (first second : UrlFormData)
          (record1 record2 : ShortenedUrl),
     (i < j)%nat ->
     forms !! i = Some first -> forms !! j = Some second ->
     createdUrls !! i = Some record1 -> createdUrls !! j = Some record2 ->
     trim (customShortCode first) <> [] ->
     trim (customShortCode second) <> [] ->
     shortCode record1 <> shortCode record2).
Proof.
  intros Hok createdUrls.
  pose proof (submit_related coded_from forms errors w createUrl_coded Hok)
    as Hcoded. fold createdUrls in Hcoded.
  assert (Hclean :
    (UrlShortenerForm.collect_errors shortenedUrls forms).2 = false).
  { rewrite validateAllForms_result in Hok. cbn [fst] in Hok.
    by apply negb_true_iff. }
  destruct (accepted_batch shortenedUrls forms Hclean)
    as [Hfields Hdistinct].
  assert (Hcustom :
    forall (i : nat) (form : UrlFormData) (record : ShortenedUrl),
      forms !! i = Some form -> createdUrls !! i = Some record ->
      trim (customShortCode form) <> [] ->
      shortCode record = trim (customShortCode form)
      /\ trim (customShortCode form) = customShortCode form
      /\ urlUtils.validateShortCode (customShortCode form) = true
      /\ Forall (fun url => shortCode url <> customShortCode form)
           shortenedUrls).
  { intros i form record Hform Hrecord Hne.
    destruct (Forall2_lookup_lr _ _ _ _ _ _ Hcoded Hform Hrecord)
      as [Hcode _].
    specialize (Hfields i form Hform).
    apply validateForm_empty_iff in Hfields as Hparts.
    destruct Hparts as (_ & _ & [Hblank | [Hvalid Hunique]] & _); [done |].
    repeat split; auto using trim_valid. }
  split; [| split].
  - apply Forall_lookup. intros i record Hrecord.
    destruct (Forall2_lookup_r _ _ _ _ _ Hcoded Hrecord)
      as (form & Hform & Hcode & Hgen).
    destruct (decide (trim (customShortCode form) = [])) as [Hblank | Hne].
    + destruct (Hgen Hblank) as (w' & ->). apply generated_code_passes.
    + destruct (Hcustom i form record Hform Hrecord Hne)
        as (-> & -> & Hvalid & _). exact Hvalid.
  - intros i form record Hform Hrecord Hne.
    destruct (Hcustom i form record Hform Hrecord Hne)
      as (-> & -> & _ & Hunique). by split.
  - intros i j first second record1 record2 Hij Hi Hj Hr1 Hr2 Hne1 Hne2 Hsame.
    destruct (Hcustom i first record1 Hi Hr1 Hne1) as (Hc1 & _).
    destruct (Hcustom j second record2 Hj Hr2 Hne2) as (Hc2 & _).
    apply (Hdistinct j). exists i, first, second.
    repeat split; try done. congruence.
Qed.
End creation.

Lemma created_codes_valid_witness :
  let generated := mkUrlFormData (lit "https://example.com/a") [] (of_Z 30) in
  let custom := mkUrlFormData (lit "https://example.com/b") (lit "xyz789")
                  (of_Z 30) in
  Forall (fun record => urlUtils.validateShortCode (shortCode record) = true)
    (@UrlShortenerForm.submit sample_browser [] [generated; custom] ∅
       initial_world).1.
Proof.
  intros generated custom.
  apply (@created_codes_valid sample_browser [] [generated; custom] ∅
           initial_world).
  vm_compute. reflexivity.
Defined.

Section kept_records.
Context `{Browser}.
Variable shortenedUrls : list ShortenedUrl.

Lemma log_only_counters (w w0 : World) (a b : nat) :
  log_only w w0 -> log_only w (set_draws a (set_ticks b w0)).
Proof.
  intros Hlog. eapply log_only_trans; [exact Hlog |]. by constructor.
Qed.

Lemma generate_loop_log_only (n : nat) (result : jsstring) (w : World) :
  log_only w (urlUtils.generate_loop n result w).2.
Proof.
  revert result w. induction n as [| n IH]; intros result w.
  - apply log_only_refl.
  - cbn [urlUtils.generate_loop]. step. cbv beta.
    eapply log_only_trans; [| apply IH].
    unfold Math_random_call. cbn [snd]. by constructor.
Qed.

Lemma generateRandomShortCode_log_only (w : World) :
  log_only w (urlUtils.generateRandomShortCode w).2.
Proof.
  pose proof (generate_loop_log_only 6 [] w) as Hloop.
  unfold urlUtils.generateRandomShortCode, bind, Logger.info.
  destruct (urlUtils.generate_loop 6 [] w) as [result w1].
  cbn [snd] in Hloop.
  match goal with |- context [Logger.addLog ?l ?m ?d ?s w1] =>
    pose proof (addLog_log_only l m d s w1) as Hlog;
    destruct (Logger.addLog l m d s w1) as [u w2] end.
  cbn [snd] in *. by eapply log_only_trans.
Qed.

Lemma createUrl_log_only (form : UrlFormData) (w : World) :
  log_only w (UrlShortenerForm.createUrl form w).2.
Proof.
  unfold UrlShortenerForm.createUrl. unfold bind at 1.
  match goal with |- context [let (a, w') := ?m w in _] =>
    assert (Hfirst : log_only w (m w).2);
    [| destruct (m w) as [code w1] ] end.
  { destruct (truthy (trim (customShortCode form)));
      [apply log_only_refl | apply generateRandomShortCode_log_only]. }
  cbn [snd] in Hfirst.
  unfold bind, Date_now_call, random_id, bind, Math_random_call, ret.
  cbn [snd]. by apply log_only_counters.
Qed.

Lemma addUrl_world (url : ShortenedUrl) (w : World) :
  let w' := (useUrlStorage.addUrl shortenedUrls url w).2 in
  let updatedUrls := shortenedUrls ++ [url] in
  let written :=
    <["shortened-urls" := JSON_stringify_urls updatedUrls]>
      (localStorage w) in
  (storage_fits written = true ->
   shortenedUrls_cell w' = updatedUrls
   /\ localStorage w' !! "shortened-urls" =
      Some (JSON_stringify_urls updatedUrls))
  /\
  (storage_fits written = false ->
   shortenedUrls_cell w' = shortenedUrls_cell w
   /\ localStorage w' !! "shortened-urls" =
      localStorage w !! "shortened-urls").
Proof.
  intros w' updatedUrls written.
  assert (Hcell : shortenedUrls_cell w' =
                  shortenedUrls_cell
                    (useUrlStorage.saveUrls updatedUrls w).2
                  /\ localStorage w' !! "shortened-urls" =
                     localStorage (useUrlStorage.saveUrls updatedUrls w).2
                     !! "shortened-urls").
  { unfold w', useUrlStorage.addUrl. step. cbv beta. fold updatedUrls.
    match goal with |- context [Logger.info ?m ?d ?s ?w0] =>
      pose proof (addLog_log_only info_level m d s w0) as Hlog;
      fold (Logger.info m d s w0) in Hlog end.
    by rewrite (same_shortenedUrls _ _ Hlog), (same_storage _ _ Hlog). }
  destruct Hcell as [-> ->]. apply saveUrls_spec.
Qed.

(** [addUrl] stores the collection of its render followed by the new
    record, whatever the collection in memory has become since: when the
    storage accepts the write that list replaces both the stored and the
    in-memory collection, and when it refuses neither changes. *)
Theorem addUrl_spec (url : ShortenedUrl) (w : World) :
  let w' := (useUrlStorage.addUrl shortenedUrls url w).2 in
  let written :=
    <["shortened-urls" := JSON_stringify_urls (shortenedUrls ++ [url])]>
      (localStorage w) in
  (storage_fits written = true ->
   shortenedUrls_cell w' = shortenedUrls ++ [url]
   /\ localStorage w' !! "shortened-urls" =
      Some (JSON_stringify_urls (shortenedUrls ++ [url]))
   /\ (forall (i : nat) (record : ShortenedUrl),
         shortenedUrls !! i = Some record ->
         shortenedUrls_cell w' !! i = Some record)
   /\ shortenedUrls_cell w' !! length shortenedUrls = Some url
   /\ length (shortenedUrls_cell w') = S (length shortenedUrls))
  /\
  (storage_fits written = false ->
   shortenedUrls_cell w' = shortenedUrls_cell w
   /\ localStorage w' !! "shortened-urls" =
      localStorage w !! "shortened-urls").
Proof.
  intros w' written.
  destruct (addUrl_world url w) as [Hfits Hfull].
  split; [| exact Hfull].
  intros Hwritten. destruct (Hfits Hwritten) as [Hcell Hstore].
  fold w' in Hcell, Hstore. rewrite Hcell.
  split; [done |]. split; [done |]. split; [| split].
  - intros i record Hi. by apply lookup_app_l_Some.
  - by rewrite list_lookup_middle.
  - rewrite length_app. cbn. lia.
Qed.

Lemma createAll_last (pending : list UrlFormData)
    (createdUrls : list ShortenedUrl) (w : World) :
  (forall st, storage_fits st = true) ->
  pending <> [] ->
  exists lastRecord : ShortenedUrl,
    last (UrlShortenerForm.createAll shortenedUrls pending createdUrls w).1
    = Some lastRecord
    /\ shortenedUrls_cell
         (UrlShortenerForm.createAll shortenedUrls pending createdUrls w).2
       = shortenedUrls ++ [lastRecord]
    /\ localStorage
         (UrlShortenerForm.createAll shortenedUrls pending createdUrls w).2
       !! "shortened-urls"
       = Some (JSON_stringify_urls (shortenedUrls ++ [lastRecord])).
Proof.
  intros Hfits. revert createdUrls w.
  induction pending as [| form rest IH]; intros createdUrls w Hne; [done |].
  cbn [UrlShortenerForm.createAll].
  repeat (step; cbv beta).
  set (record := (UrlShortenerForm.createUrl form w).1).
  set (w1 := (UrlShortenerForm.createUrl form w).2).
  set (w2 := (useUrlStorage.addUrl shortenedUrls record w1).2).
  destruct rest as [| next rest].
  - cbn [UrlShortenerForm.createAll]. unfold ret. cbn [fst snd].
    exists record. rewrite last_snoc. split; [done |].
    apply (addUrl_world record w1), Hfits.
  - by apply IH.
Qed.

(** All the records of an accepted batch are created, but each one is
    stored over the previous one: when the storage accepts every write, the
    collection in memory and in the storage is afterwards the collection
    of the render followed by the last created record alone.  The form is
    reset to one blank request. *)
Theorem submit_keeps_last_record (forms : list UrlFormData)
    (errors : AllErrors) (w : World) :
  (forall st, storage_fits st = true) ->
  (UrlShortenerForm.validateAllForms shortenedUrls forms w).1 = true ->
  forms <> [] ->
  let createdUrls :=
    (UrlShortenerForm.submit shortenedUrls forms errors w).1 in
  let w' := (UrlShortenerForm.handleSubmit shortenedUrls forms errors w).2 in
  length createdUrls = length forms
  /\ exists lastRecord : ShortenedUrl,
       last createdUrls = Some lastRecord
       /\ shortenedUrls_cell w' = shortenedUrls ++ [lastRecord]
       /\ localStorage w' !! "shortened-urls" =
          Some (JSON_stringify_urls (shortenedUrls ++ [lastRecord]))
       /\ forms_cell w' = [UrlShortenerForm.blank_form].
Proof.
  intros Hfits Hok Hne createdUrls w'.
  split.
  { symmetry. eapply Forall2_length.
    apply (submit_related shortenedUrls (fun _ _ => True) forms errors w);
      done. }
  unfold createdUrls, w'. rewrite handleSubmit_world.
  unfold UrlShortenerForm.submit. repeat (step; cbv beta).
  rewrite !validateAllForms_result in *. cbn [fst snd] in *.
  rewrite Hok. cbn [negb]. repeat (step; cbv beta).
  unfold ret. cbn [fst snd].
  match goal with |- context [UrlShortenerForm.createAll _ _ [] ?w0] =>
    destruct (createAll_last forms [] w0 Hfits Hne)
      as (lastRecord & Hlast & Hcell & Hstore);
    set (w1 := (UrlShortenerForm.createAll shortenedUrls forms [] w0).2)
      in * end.
  exists lastRecord. split; [exact Hlast |].
  match goal with |- context [Logger.info ?m ?d ?s ?w0] =>
    pose proof (addLog_log_only info_level m d s w0) as Hlog;
    fold (Logger.info m d s w0) in Hlog end.
  rewrite (same_shortenedUrls _ _ Hlog), (same_storage _ _ Hlog),
    (same_forms _ _ Hlog) by done.
  unfold UrlShortenerForm.setForms, UrlShortenerForm.setSuccessMessage,
    modify. cbn [snd]. fields. by repeat split.
Qed.
End kept_records.

Lemma addUrl_spec_witness :
  shortenedUrls_cell
    (@useUrlStorage.addUrl sample_browser [] known_record initial_world).2
  = [known_record].
Proof.
  apply (proj1 (@addUrl_spec sample_browser [] known_record initial_world)).
  reflexivity.
Defined.

(** Two valid requests with different custom codes: both records are
    created, one is kept. *)
Lemma submit_keeps_last_record_witness :
  let first := mkUrlFormData (lit "https://example.com/a") (lit "abc123")
                 (of_Z 30) in
  let second := mkUrlFormData (lit "https://example.com/b") (lit "xyz789")
                  (of_Z 30) in
  length (@UrlShortenerForm.submit sample_browser [] [first; second] ∅
            initial_world).1 = 2%nat
  /\ exists lastRecord : ShortenedUrl,
       shortenedUrls_cell
         (@UrlShortenerForm.handleSubmit sample_browser [] [first; second] ∅
            initial_world).2 = [lastRecord]
       /\ shortCode lastRecord = lit "xyz789".
Proof.
  intros first second.
  destruct (@submit_keeps_last_record sample_browser [] [first; second] ∅
              initial_world)
    as (Hlen & lastRecord & Hlast & Hcell & _).
  - reflexivity.
  - vm_compute. reflexivity.
  - discriminate.
  - split; [exact Hlen |]. exists lastRecord. split; [exact Hcell |].
    vm_compute in Hlast. by injection Hlast as <-.
Defined.

(** ** The requests of the form *)

Lemma filter_from_remove {A} (l : list A) (k index : nat) :
  filter_from (fun _ i => negb (i =? index)%nat) l k =
  if decide (index < k)%nat then l
  else take (index - k) l ++ drop (S (index - k)) l.
Proof.
  revert k. induction l as [| x l IH]; intros k.
  - cbn. by destruct (decide (index < k)%nat), (index - k)%nat.
  - cbn [filter_from]. rewrite IH.
    destruct (Nat.eqb_spec k index) as [-> | Hne]; cbn [negb].
    + destruct (decide (index < S index)%nat); [| lia].
      destruct (decide (index < index)%nat); [lia |].
      by rewrite Nat.sub_diag.
    + destruct (decide (index < k)%nat).
      * by destruct (decide (index < S k)%nat); [| lia].
      * destruct (decide (index < S k)%nat); [lia |].
        by replace (index - k)%nat with (S (index - S k)) by lia.
Qed.

Section form_requests.
Context `{Browser}.

(** [addForm] and [removeForm] keep the number of requests between 1 and
    5: a sixth request is never added and the last one is never removed.
    [removeForm] takes out the request at the given position and keeps the
    others in order. *)
Theorem form_count_kept (forms : list UrlFormData) (errors : AllErrors)
    (index : nat) (w : World) :
  (1 <= length forms <= 5)%nat ->
  forms_cell w = forms ->
  let added := forms_cell (UrlShortenerForm.addForm forms w).2 in
  let removed :=
    forms_cell (UrlShortenerForm.removeForm forms errors index w).2 in
  (1 <= length added <= 5)%nat
  /\ (1 <= length removed <= 5)%nat
  /\ added = (if decide (length forms < 5)%nat
              then forms ++ [UrlShortenerForm.blank_form] else forms)
  /\ removed = (if decide (1 < length forms)%nat
                then take index forms ++ drop (S index) forms else forms).
Proof.
  intros Hcount Hcell added removed.
  assert (Hadded : added =
                   if decide (length forms < 5)%nat
                   then forms ++ [UrlShortenerForm.blank_form] else forms).
  { unfold added, UrlShortenerForm.addForm.
    destruct (decide (length forms < 5)%nat) as [Hlt | Hge].
    - destruct (Nat.ltb_spec (length forms) 5); [| lia].
      step. cbv beta. unfold Logger.info.
      by rewrite (same_forms _ _ (addLog_log_only _ _ _ _ _)).
    - destruct (Nat.ltb_spec (length forms) 5); [lia | done]. }
  assert (Hremoved : removed =
                     if decide (1 < length forms)%nat
                     then take index forms ++ drop (S index) forms
                     else forms).
  { unfold removed, UrlShortenerForm.removeForm.
    destruct (decide (1 < length forms)%nat) as [Hlt | Hge].
    - destruct (Nat.ltb_spec 1 (length forms)); [| lia].
      step. cbv beta. step. cbv beta. unfold Logger.info.
      rewrite (same_forms _ _ (addLog_log_only _ _ _ _ _)).
      unfold UrlShortenerForm.setErrors, UrlShortenerForm.setForms, modify.
      cbn [snd]. fields. unfold filter_index.
      rewrite filter_from_remove. cbn. by rewrite Nat.sub_0_r.
    - destruct (Nat.ltb_spec 1 (length forms)); [lia | done]. }
  split; [| split; [| by split]].
  - rewrite Hadded. destruct (decide (length forms < 5)%nat); [| done].
    rewrite length_app. cbn. lia.
  - rewrite Hremoved. destruct (decide (1 < length forms)%nat); [| done].
    rewrite length_app, length_take, length_drop. lia.
Qed.
End form_requests.

Lemma form_count_kept_witness :
  forms_cell
    (@UrlShortenerForm.removeForm sample_browser
       [UrlShortenerForm.blank_form] ∅ 0 initial_world).2
  = [UrlShortenerForm.blank_form].
Proof.
  destruct (@form_count_kept sample_browser [UrlShortenerForm.blank_form] ∅
              0%nat initial_world) as (_ & _ & _ & Hremoved).
  - cbn. lia.
  - reflexivity.
  - exact Hremoved.
Defined.

(** ** The validity input *)

Section validity_input.
Context `{Browser}.

(** Whatever is typed in the validity input, the value handed to the form
    is a non-zero integer, or an infinity when the digits exceed the range
    of numbers; it is never NaN, never zero and never a fraction.  For such
    a value the validation raises no validity error exactly when it is an
    integer between 1 and 43200. *)
Theorem validity_input_spec (shortenedUrls : list ShortenedUrl) (i : nat)
    (url code value : jsstring) :
  let v := UrlShortenerForm.validity_input value in
  ((exists z : Z, z <> 0%Z /\ v = of_Z z) \/ v = Infinity \/ v = NegInfinity)
  /\
  (UrlShortenerForm.validateForm shortenedUrls i (mkUrlFormData url code v)
     !! "validityMinutes" = None
   <-> exists z : Z, v = of_Z z /\ (1 <= z <= 43200)%Z).
Proof.
  intros v. split; [apply validity_input_shape |].
  destruct (validateForm_validity shortenedUrls i (mkUrlFormData url code v))
    as [Hout Hin]. cbn [f_validityMinutes] in Hout, Hin.
  assert (Hrange : forall z : Z,
            out_of_range (of_Z z) <-> ~ (1 <= z <= 43200)%Z).
  { intros z. unfold out_of_range, of_Z.
    change 1%Q with (inject_Z 1). change 43200%Q with (inject_Z 43200).
    rewrite <- !Zlt_Qlt. lia. }
  destruct (validity_input_shape value) as [(z & Hz & Hv) | [Hv | Hv]];
    fold v in Hv; rewrite Hv in *.
  - split.
    + intros Hnone. exists z. split; [done |].
      destruct (decide (1 <= z <= 43200)%Z) as [Hok | Hbad]; [done |].
      rewrite Hout in Hnone by (by apply Hrange). done.
    + intros (z' & Hz' & Hok). apply Hin.
      injection Hz' as <-. intros Hbad. by apply Hrange in Hbad.
  - split; [intros Hnone; by rewrite Hout in Hnone | intros (z & Hz & _); done].
  - split; [intros Hnone; by rewrite Hout in Hnone | intros (z & Hz & _); done].
Qed.
End validity_input.

(** What some inputs give: nothing typed, a word and a zero fall back to
    30; a fraction is cut at the point; a sign is kept. *)
Example validity_input_examples :
  UrlShortenerForm.validity_input [] = of_Z 30
  /\ UrlShortenerForm.validity_input (lit "soon") = of_Z 30
  /\ UrlShortenerForm.validity_input (lit "0") = of_Z 30
  /\ UrlShortenerForm.validity_input (lit "12.7") = of_Z 12
  /\ UrlShortenerForm.validity_input (lit " 45") = of_Z 45
  /\ UrlShortenerForm.validity_input (lit "-5") = of_Z (-5)
  /\ UrlShortenerForm.validity_input (lit "0x1F") = of_Z 31.
Proof. vm_compute. repeat split. Qed.

(** ** Resolving a code that is stored *)

Section resolved.
Context `{Browser}.

Lemma getSimulatedIP_world (w : World) :
  (urlUtils.getSimulatedIP w).2 = set_draws (4 + draws w) w.
Proof.
  unfold urlUtils.getSimulatedIP, urlUtils.octet, bind, Math_random_call, ret.
  reflexivity.
Qed.

Lemma getCoarseLocation_place (w : World) :
  (urlUtils.getCoarseLocation w).1 ∈ urlUtils.locations
  /\ (urlUtils.getCoarseLocation w).2 = set_draws (S (draws w)) w.
Proof.
  unfold urlUtils.getCoarseLocation. run. split; [| done].
  destruct (Math_random_range (draws w)) as [Hlo Hhi].
  destruct (random_position (Math_random (draws w))
              (length urlUtils.locations) Hlo Hhi) as (k & Hk & ->).
  { cbn. lia. }
  rewrite array_get_position.
  destruct (lookup_lt_is_Some_2 urlUtils.locations k Hk) as [place Hplace].
  rewrite Hplace. cbn [default]. apply list_elem_of_lookup. eauto.
Qed.

(** What an accepted [saveUrls] leaves alone, and its one clock reading. *)
Lemma saveUrls_frame (urls : list ShortenedUrl) (w : World) :
  (forall st, storage_fits st = true) ->
  let w' := (useUrlStorage.saveUrls urls w).2 in
  error_cell w' = error_cell w
  /\ redirecting_cell w' = redirecting_cell w
  /\ countdownInterval w' = countdownInterval w
  /\ ticks w' = S (ticks w).
Proof.
  intros Hfits w'. unfold w', useUrlStorage.saveUrls, bind, setItem.
  rewrite Hfits.
  unfold useUrlStorage.setShortenedUrls, modify, Logger.info.
  match goal with |- context [Logger.addLog ?l ?m ?d ?s ?w0] =>
    pose proof (addLog_log_only l m d s w0) as Hlog;
    pose proof (addLog_counts l m d s w0) as [_ Hticks];
    destruct (Logger.addLog l m d s w0) as [u w1] end.
  cbn [snd] in *.
  by rewrite (same_error _ _ Hlog), (same_redirecting _ _ Hlog),
    (same_countdown _ _ Hlog), Hticks.
Qed.

Lemma addClick_world (shortenedUrls : list ShortenedUrl) (code : jsstring)
    (click : ClickData) (w : World) :
  (forall st, storage_fits st = true) ->
  let w' := (useUrlStorage.addClick shortenedUrls code click w).2 in
  shortenedUrls_cell w' = clicked shortenedUrls code click
  /\ localStorage w' !! "shortened-urls" =
     Some (JSON_stringify_urls (clicked shortenedUrls code click))
  /\ error_cell w' = error_cell w
  /\ redirecting_cell w' = redirecting_cell w
  /\ countdownInterval w' = countdownInterval w
  /\ ticks w' = S (S (ticks w)).
Proof.
  intros Hfits w'. unfold w', useUrlStorage.addClick. step. cbv beta.
  fold (clicked shortenedUrls code click). unfold Logger.info.
  rewrite (same_shortenedUrls _ _ (addLog_log_only _ _ _ _ _)),
    (same_storage _ _ (addLog_log_only _ _ _ _ _)),
    (same_error _ _ (addLog_log_only _ _ _ _ _)),
    (same_redirecting _ _ (addLog_log_only _ _ _ _ _)),
    (same_countdown _ _ (addLog_log_only _ _ _ _ _)),
    (proj2 (addLog_counts _ _ _ _ _)) by done.
  destruct (saveUrls_spec (clicked shortenedUrls code click) w)
    as [Hsaved _].
  destruct (Hsaved (Hfits _)) as [Hcell Hstore].
  destruct (saveUrls_frame (clicked shortenedUrls code click) w Hfits)
    as (Herr & Hredir & Hcount & Hticks).
  by rewrite Hcell, Hstore, Herr, Hredir, Hcount, Hticks.
Qed.

(** One run of the effect in which the code resolves: the click is
    recorded, the countdown is armed, and neither [error] nor
    [redirecting] is written. *)
Lemma effect_success (shortenedUrls : list ShortenedUrl) (code : jsstring)
    (record : ShortenedUrl) (w : World) :
  (forall st, storage_fits st = true) ->
  code <> [] ->
  useUrlStorage.findUrlByShortCode shortenedUrls code = Some record ->
  num_gt (of_Z (Date_now (ticks w))) (expiresAt record) = false ->
  let w' := (RedirectHandler.effect (Some code) shortenedUrls w).2 in
  exists click : ClickData,
    browser_click click
    /\ shortenedUrls_cell w' = clicked shortenedUrls code click
    /\ localStorage w' !! "shortened-urls" =
       Some (JSON_stringify_urls (clicked shortenedUrls code click))
    /\ countdownInterval w' = Some (originalUrl record)
    /\ error_cell w' = error_cell w
    /\ redirecting_cell w' = redirecting_cell w
    /\ ticks w' = (5 + ticks w)%nat.
Proof.
  intros Hfits Hne Hfound Hfresh w'.
  unfold w', RedirectHandler.effect.
  destruct code as [| c code]; [done |]. rewrite Hfound.
  step. cbv beta. rewrite isUrlExpired_result, Hfresh.
  assert (Hw1 : (useUrlStorage.isUrlExpired record w).2 =
                set_ticks (S (ticks w)) w)
    by (unfold useUrlStorage.isUrlExpired; by run).
  rewrite Hw1. set (w1 := set_ticks (S (ticks w)) w).
  unfold random_id. repeat (step; cbv beta).
  unfold Math_random_call, Date_now_call, ret. cbn [fst snd].
  set (w2 := set_ticks _ (set_draws _ w1)).
  rewrite (getSimulatedIP_world w2).
  set (w3 := set_draws (4 + draws w2) w2).
  destruct (getCoarseLocation_place w3) as [Hplace Hw4].
  rewrite Hw4. set (w4 := set_draws (S (draws w3)) w3).
  set (click := mkClickData _ _ _ _ _ _).
  exists click.
  destruct (addClick_world shortenedUrls (c :: code) click w4 Hfits)
    as (Hcell & Hstore & Herr & Hredir & _ & Hticks).
  unfold modify, Logger.info. cbn [snd]. fields.
  rewrite (same_shortenedUrls _ _ (addLog_log_only _ _ _ _ _)),
    (same_storage _ _ (addLog_log_only _ _ _ _ _)),
    (same_error _ _ (addLog_log_only _ _ _ _ _)),
    (same_redirecting _ _ (addLog_log_only _ _ _ _ _)),
    (proj2 (addLog_counts _ _ _ _ _)) by done.
  rewrite Hcell, Hstore, Herr, Hredir, Hticks.
  unfold w4, w3, w2, w1. fields.
  repeat split; done.
Qed.

Lemma with_clicks_nil (url : ShortenedUrl) : with_clicks url [] = url.
Proof. destruct url. unfold with_clicks. cbn. by rewrite app_nil_r. Qed.

Lemma clicks_added_none (code : jsstring) (urls : list ShortenedUrl) :
  Forall2 (clicks_added code 0) urls urls.
Proof.
  induction urls as [| url urls IH]; constructor; [| exact IH].
  unfold clicks_added. destruct (decide (shortCode url = code)); [| done].
  exists []. split; [done |]. split; [constructor |].
  by rewrite with_clicks_nil.
Qed.

Lemma clicks_added_next (code : jsstring) (n : nat) (click : ClickData)
    (urls current : list ShortenedUrl) :
  browser_click click ->
  Forall2 (clicks_added code n) urls current ->
  Forall2 (clicks_added code (S n)) urls (clicked current code click).
Proof.
  intros Hclick Hrel. unfold clicked. apply Forall2_fmap_r.
  eapply Forall2_impl; [exact Hrel |].
  intros before after Hadded. unfold compose, clicks_added in Hadded |- *.
  cbn beta.
  destruct (decide (shortCode before = code)) as [Hcode | Hcode].
  - destruct Hadded as (added & Hlen & Hall & ->).
    cbn [with_clicks shortCode]. unfold str_eq.
    rewrite bool_decide_eq_true_2 by done.
    exists (added ++ [click]).
    split; [rewrite length_app; cbn; lia |].
    split; [apply Forall_app; split; [done | by constructor] |].
    unfold useUrlStorage.with_click, with_clicks. cbn.
    by rewrite <- app_assoc.
  - subst after. unfold str_eq. by rewrite bool_decide_eq_false_2.
Qed.

(** Clicks do not change what a code resolves to, but for its clicks. *)
Lemma find_clicks_added (code : jsstring) (n : nat)
    (urls current : list ShortenedUrl) (record : ShortenedUrl) :
  Forall2 (clicks_added code n) urls current ->
  useUrlStorage.findUrlByShortCode urls code = Some record ->
  exists added : list ClickData,
    useUrlStorage.findUrlByShortCode current code
    = Some (with_clicks record added).
Proof.
  unfold useUrlStorage.findUrlByShortCode.
  induction 1 as [| before after urls current Hadded Hrel IH];
    cbn [find]; [done |].
  unfold clicks_added in Hadded. unfold str_eq at 1 3.
  destruct (decide (shortCode before = code)) as [Hcode | Hcode].
  - destruct Hadded as (added & _ & _ & ->). cbn [with_clicks shortCode isActive].
    rewrite !bool_decide_eq_true_2 by done. cbn [andb].
    destruct (isActive before); [| exact IH].
    intros [= <-]. by exists added.
  - subst after. rewrite !bool_decide_eq_false_2 by done. exact IH.
Qed.

(** Opening a short URL whose record is stored.  On mount the effect runs
    with the hook's initial empty collection, so it reports
    [Short URL not found] although the hook has loaded the record, and no
    later run takes that error back.  Every later run, made after a render
    with the records then in state, resolves the code: it records one
    more click of this browser on each record carrying the code and arms
    the countdown again.  So after [n] such runs the error screen is still
    the one shown, and these records have [n] more clicks, in memory and
    in the storage.  The record must not be expired at the clock readings
    of these runs: one on mount, five in each later run. *)
Theorem resolution_after_mount (urls : list ShortenedUrl) (code : jsstring)
    (record : ShortenedUrl) (n : nat) (w : World) :
  (forall st, storage_fits st = true) ->
  code <> [] ->
  shortenedUrls_cell w = urls ->
  useUrlStorage.findUrlByShortCode urls code = Some record ->
  (forall k : nat,
     (k < ticks w + 1 + 5 * n)%nat ->
     num_gt (of_Z (Date_now k)) (expiresAt record) = false) ->
  let mounted := (RedirectHandler.mount_run (Some code) w).2 in
  let w' :=
    Nat.iter n (fun w0 => (RedirectHandler.render_run (Some code) w0).2)
      mounted in
  error_cell mounted = RedirectHandler.not_found_message
  /\ shortenedUrls_cell mounted = urls
  /\ error_cell w' = RedirectHandler.not_found_message
  /\ redirecting_cell w' = false
  /\ RedirectHandler.state_of w' = NotFound
  /\ Forall2 (clicks_added code n) urls (shortenedUrls_cell w')
  /\ ticks w' = (ticks w + 1 + 5 * n)%nat
  /\ ((0 < n)%nat ->
      countdownInterval w' = Some (originalUrl record)
      /\ localStorage w' !! "shortened-urls" =
         Some (JSON_stringify_urls (shortenedUrls_cell w'))).
Proof.
  intros Hfits Hne Hcell Hfound Hfresh mounted w'.
  assert (Hmount :
    error_cell mounted = RedirectHandler.not_found_message
    /\ redirecting_cell mounted = false
    /\ shortenedUrls_cell mounted = urls
    /\ ticks mounted = S (ticks w)).
  { unfold mounted, RedirectHandler.mount_run, RedirectHandler.effect.
    destruct code as [| c code]; [done |].
    cbn [useUrlStorage.findUrlByShortCode find].
    repeat (step; cbv beta).
    unfold RedirectHandler.setError, RedirectHandler.setRedirecting,
      Logger.warn, modify. cbn [fst snd]. fields.
    rewrite (same_shortenedUrls _ _ (addLog_log_only _ _ _ _ _)),
      (proj2 (addLog_counts _ _ _ _ _)).
    done. }
  destruct Hmount as (Herr0 & Hredir0 & Hcell0 & Hticks0).
  assert (Hruns : forall m : nat,
    (m <= n)%nat ->
    let wm :=
      Nat.iter m (fun w0 => (RedirectHandler.render_run (Some code) w0).2)
        mounted in
    error_cell wm = RedirectHandler.not_found_message
    /\ redirecting_cell wm = false
    /\ ticks wm = (ticks w + 1 + 5 * m)%nat
    /\ Forall2 (clicks_added code m) urls (shortenedUrls_cell wm)
    /\ ((0 < m)%nat ->
        countdownInterval wm = Some (originalUrl record)
        /\ localStorage wm !! "shortened-urls" =
           Some (JSON_stringify_urls (shortenedUrls_cell wm)))).
  { induction m as [| m IH]; intros Hm wm.
    - unfold wm. cbn [Nat.iter nat_rect].
      split; [done |]. split; [done |]. split; [lia |].
      split; [rewrite Hcell0; apply clicks_added_none | lia].
    - destruct (IH ltac:(lia)) as (Herr & Hredir & Hticks & Hrel & _).
      unfold wm. rewrite Nat.iter_succ.
      set (prev := Nat.iter m _ mounted) in *.
      unfold RedirectHandler.render_run.
      destruct (find_clicks_added code m urls (shortenedUrls_cell prev)
                  record Hrel Hfound) as (added & Hfind).
      destruct (effect_success (shortenedUrls_cell prev) code
                  (with_clicks record added) prev Hfits Hne Hfind)
        as (click & Hclick & Hcells & Hstore & Hcount & Herr' & Hredir'
            & Hticks').
      { cbn [with_clicks expiresAt]. apply Hfresh. lia. }
      rewrite Herr', Hredir', Hticks', Hcells, Hcount, Hstore.
      split; [done |]. split; [done |]. split; [lia |].
      split; [by apply clicks_added_next | done]. }
  destruct (Hruns n ltac:(lia)) as (Herr & Hredir & Hticks & Hrel & Harmed).
  fold w' in Herr, Hredir, Hticks, Hrel, Harmed.
  split; [exact Herr0 |]. split; [exact Hcell0 |].
  split; [exact Herr |]. split; [exact Hredir |].
  split; [unfold RedirectHandler.state_of; by rewrite Herr |].
  split; [exact Hrel |]. split; [exact Hticks | exact Harmed].
Qed.
End resolved.

Lemma resolution_after_mount_witness :
  let record :=
    mkShortenedUrl (lit "k3x9p2q1z") (lit "https://example.com")
      (lit "abc123") (of_Z 1700000000000) (of_Z 1700001800000) (of_Z 30)
      [] true in
  RedirectHandler.state_of
    (Nat.iter 2
       (fun w0 =>
          (@RedirectHandler.render_run sample_browser (Some (lit "abc123"))
             w0).2)
       (@RedirectHandler.mount_run sample_browser (Some (lit "abc123"))
          (world_holding [record])).2)
  = NotFound.
Proof.
  intros record.
  apply (@resolution_after_mount sample_browser [record] (lit "abc123")
           record 2 (world_holding [record])).
  - reflexivity.
  - discriminate.
  - reflexivity.
  - reflexivity.
  - intros k Hk.
    do 11 (destruct k as [| k]; [vm_compute; reflexivity |]).
    vm_compute in Hk. lia.
Defined.

(** ** Arithmetic on whole numbers *)

Lemma num_add_integers (a b : Z) : num_add (of_Z a) (of_Z b) = of_Z (a + b).
Proof.
  unfold num_add, of_Z, inject_Z, Qplus. cbn [Qnum Qden].
  f_equal. f_equal. lia.
Qed.

Lemma num_lt_integers (a b : Z) : num_lt (of_Z a) (of_Z b) = (a <? b)%Z.
Proof.
  unfold num_lt, of_Z, Qltb, Qle_bool, inject_Z. cbn [Qnum Qden].
  rewrite !Z.mul_1_r. by rewrite Z.ltb_antisym.
Qed.

Lemma floor_div_integers (a : Z) (p : positive) :
  Math_floor (num_div (of_Z a) (of_Z (Zpos p))) = of_Z (a / Zpos p).
Proof.
  unfold num_div, of_Z.
  assert (Hnonzero : Qeq_bool (inject_Z (Zpos p)) 0 = false).
  { apply not_true_iff_false. rewrite Qeq_bool_iff.
    change 0%Q with (inject_Z 0). rewrite inject_Z_injective. done. }
  rewrite Hnonzero. unfold Math_floor, of_Z. by rewrite <- Zdiv_Qdiv.
Qed.

Lemma num_rem_integers (a : Z) (p : positive) :
  num_rem (of_Z a) (of_Z (Zpos p)) = of_Z (Z.rem a (Zpos p)).
Proof.
  unfold num_rem, of_Z.
  assert (Hnonzero : Qeq_bool (inject_Z (Zpos p)) 0 = false).
  { apply not_true_iff_false. rewrite Qeq_bool_iff.
    change 0%Q with (inject_Z 0). rewrite inject_Z_injective. done. }
  rewrite Hnonzero.
  unfold truncate, inject_Z, Qdiv, Qminus, Qplus, Qopp, Qmult, Qinv.
  cbn [Qnum Qden]. f_equal. f_equal.
  pose proof (Z.quot_rem' a (Zpos p)) as Hquot.
  rewrite !Z.mul_1_r. change (1 * p)%positive with p. lia.
Qed.

(** ** The statistics view *)

Section statistics.
Context `{Browser}.

(** A validity of [m] whole minutes is shown as [m] minutes below an hour,
    as the whole hours and the remaining minutes below a day, and from a
    day on as the whole days and the whole hours of the rest, the minutes
    left over being dropped. *)
Theorem formatDuration_spec (m : Z) :
  Statistics.formatDuration (of_Z m) =
  if (m <? 60)%Z then
    Number_toString (of_Z m) 10 ++ lit "m"
  else if (m <? 1440)%Z then
    Number_toString (of_Z (m / 60)) 10 ++ lit "h "
    ++ Number_toString (of_Z (m mod 60)) 10 ++ lit "m"
  else
    Number_toString (of_Z (m / 1440)) 10 ++ lit "d "
    ++ Number_toString (of_Z (m mod 1440 / 60)) 10 ++ lit "h".
Proof.
  unfold Statistics.formatDuration.
  rewrite !num_lt_integers.
  destruct (Z.ltb_spec m 60) as [Hmin | Hhour]; [done |].
  rewrite !num_rem_integers, !floor_div_integers.
  rewrite !Z.rem_mod_nonneg by lia.
  by destruct (Z.ltb_spec m 1440).
Qed.

Lemma totalClicks_from (urls : list ShortenedUrl) (a : Z) :
  foldl (fun sum url => num_add sum (of_nat (length (clicks url))))
    (of_Z a) urls
  = of_Z (a + Z.of_nat (sum_list ((fun url => length (clicks url)) <$> urls))).
Proof.
  revert a. induction urls as [| url urls IH]; intros a.
  - cbn. by rewrite Z.add_0_r.
  - cbn [foldl].
    change (of_nat (length (clicks url)))
      with (of_Z (Z.of_nat (length (clicks url)))).
    rewrite num_add_integers, IH. f_equal. cbn. lia.
Qed.

Lemma clicked_count (urls : list ShortenedUrl) (code : jsstring)
    (click : ClickData) :
  sum_list ((fun url => length (clicks url)) <$> clicked urls code click)
  = sum_list ((fun url => length (clicks url)) <$> urls)
    + length (filter (fun url => shortCode url = code) urls).
Proof.
  unfold clicked. induction urls as [| url urls IH]; [done |].
  rewrite !fmap_cons, filter_cons.
  change (sum_list (?x :: ?l)) with (x + sum_list l).
  rewrite IH. unfold str_eq.
  destruct (decide (shortCode url = code)) as [Hcode | Hcode].
  - rewrite bool_decide_eq_true_2 by done.
    cbn [useUrlStorage.with_click clicks length].
    rewrite length_app. cbn [length]. lia.
  - rewrite bool_decide_eq_false_2 by done. lia.
Qed.

(** The total shown is the sum of the numbers of clicks of the records;
    the collection [addClick] builds for a code raises it by the number of
    records that carry the code. *)
Theorem totalClicks_spec (urls : list ShortenedUrl) (code : jsstring)
    (click : ClickData) :
  let clicks_of (l : list ShortenedUrl) :=
    sum_list ((fun url => length (clicks url)) <$> l) in
  Statistics.totalClicks urls = of_nat (clicks_of urls)
  /\ Statistics.totalClicks (clicked urls code click) =
     of_nat (clicks_of urls
             + length (filter (fun url => shortCode url = code) urls)).
Proof.
  intros clicks_of. unfold Statistics.totalClicks, clicks_of.
  rewrite !totalClicks_from, clicked_count. done.
Qed.
End statistics.
